(** * multipass: [LocalSocketReply], an HTTP/1.1 reply read off a local socket

    A shallow embedding of [src/network/local_socket_reply.cpp] and the
    properties of its request encoder, its read loop, its reply parser, its
    status classification and its sequential reader.

    Byte arrays ([QByteArray]) are lists of 8-bit characters, the reply
    object is a record that is passed explicitly through every member
    function, and the one place where the C++ code can step outside a
    container (an iterator moved past the end of the list of lines) makes the
    parser return [None]. *)

From Stdlib Require Import Ascii String DecimalString HexadecimalString.
From Stdlib Require Import ZArith Lia Bool Arith List DecimalPos.
Import ListNotations.

(* ===================================================================== *)
(** ** Bytes *)
(* ===================================================================== *)

Definition QByteArray := list ascii.

(** A [QString] holding Latin-1 text: one code unit per byte. *)
Definition QString := list ascii.

(** The bytes of a literal. *)
Definition bytes (s : string) : QByteArray := list_ascii_of_string s.

Definition NUL : ascii := "000"%char.
Definition LF : ascii := "010"%char.
Definition CR : ascii := "013"%char.
Definition SP : ascii := " "%char.
Definition CRLF : QByteArray := [CR; LF].

(** No line feed, and no NUL, among the bytes. *)
Definition no_lf (a : QByteArray) : bool := negb (existsb (Ascii.eqb LF) a).
Definition no_nul (a : QByteArray) : bool := negb (existsb (Ascii.eqb NUL) a).

(** [constexpr int len = 65536;] *)
Definition len : Z := 65536.

(* ===================================================================== *)
(** ** The Qt operations the file calls *)
(* ===================================================================== *)

Module Qt.

(** [QByteArray::isEmpty]. *)
Definition isEmpty (a : QByteArray) : bool :=
  match a with [] => true | _ :: _ => false end.

(** [QByteArray::startsWith]. *)
Fixpoint startsWith (a prefix : QByteArray) {struct prefix} : bool :=
  match prefix, a with
  | [], _ => true
  | _ :: _, [] => false
  | p :: prefix', c :: a' => Ascii.eqb c p && startsWith a' prefix'
  end.

(** [QByteArray::contains(const char * )]: a case-sensitive search for the
    bytes of the needle. *)
Fixpoint contains (a needle : QByteArray) : bool :=
  startsWith a needle ||
  match a with
  | [] => false
  | _ :: a' => contains a' needle
  end.

(** [QByteArray::split(char)]: the pieces between the separators, empty
    pieces included; the result always has at least one element. *)
Fixpoint split (sep : ascii) (a : QByteArray) : list QByteArray :=
  match a with
  | [] => [[]]
  | c :: r =>
      if Ascii.eqb c sep then [] :: split sep r
      else match split sep r with
           | l :: ls => (c :: l) :: ls
           | [] => [[c]]
           end
  end.

(** White space as [QByteArray::trimmed] sees it: HT, LF, VT, FF, CR and
    the space. NUL is not white space. *)
Definition ascii_isspace (c : ascii) : bool :=
  let n := nat_of_ascii c in
  ((9 <=? n)%nat && (n <=? 13)%nat) || (n =? 32)%nat.

Fixpoint trim_start (a : QByteArray) : QByteArray :=
  match a with
  | [] => []
  | c :: r => if ascii_isspace c then trim_start r else a
  end.

Fixpoint trim_end (a : QByteArray) : QByteArray :=
  match a with
  | [] => []
  | c :: r =>
      match trim_end r with
      | [] => if ascii_isspace c then [] else [c]
      | r' => c :: r'
      end
  end.

(** [QByteArray::trimmed]. *)
Definition trimmed (a : QByteArray) : QByteArray :=
  trim_end (trim_start a).

(** [QByteArray::number(qint64)]: the decimal digits, with a minus sign for
    a negative number. *)
Definition number (n : Z) : QByteArray :=
  bytes (DecimalString.NilZero.string_of_int (Z.to_int n)).

(** [QString::fromLatin1(const QByteArray &)] of Qt 5: the conversion stops
    at the first NUL of the array. *)
Fixpoint fromLatin1 (a : QByteArray) : QString :=
  match a with
  | [] => []
  | c :: r => if Ascii.eqb c NUL then [] else c :: fromLatin1 r
  end.

(** [\d] without the Unicode-properties option: the ASCII digits. *)
Definition is_digit (c : ascii) : bool :=
  let n := nat_of_ascii c in (48 <=? n)%nat && (n <=? 57)%nat.

(** [QString::toInt(&ok)] in base ten, on text without sign or blanks (the
    only text the file hands it is a capture of [\d{3}]): the value and
    the [ok] flag. *)
Fixpoint toInt_digits (acc : Z) (s : QString) : option Z :=
  match s with
  | [] => Some acc
  | c :: r =>
      if is_digit c
      then toInt_digits (10 * acc + (Z.of_nat (nat_of_ascii c) - 48)) r
      else None
  end.

Definition toInt (s : QString) : Z * bool :=
  match s with
  | [] => (0%Z, false)
  | _ :: _ =>
      match toInt_digits 0 s with
      | Some v => (v, true)
      | None => (0%Z, false)
      end
  end.

End Qt.

(* ===================================================================== *)
(** ** The status-line pattern

    The pattern of [parse_status]: anchored at the start, the literal
    HTTP/, a digit, a dot, a digit, a space, the group [status] of three
    digits, a space, the group [message] made of a starred dot, and the
    dollar. It is matched the way [QRegularExpression] does with no pattern
    option set: the dot matches every character but the line feed, and the
    dollar matches at the end of the subject or before a line feed that
    ends it. *)
(* ===================================================================== *)

Module Regex.

Notation "x <- c ;; k" :=
  (match c with Some x => k | None => None end)
  (at level 61, c at next level, right associativity).

(** A literal of the pattern. *)
Definition lit (p : QString) (s : QString) : option QString :=
  if Qt.startsWith s p then Some (skipn (length p) s) else None.

(** [\d]. *)
Definition digit (s : QString) : option (ascii * QString) :=
  match s with
  | c :: r => if Qt.is_digit c then Some (c, r) else None
  | [] => None
  end.

(** The dot, starred, then the dollar: everything up to the end of the subject, a final line feed left
    out; no match when a line feed stands anywhere else. *)
Definition dot_star_eol (s : QString) : option QString :=
  if no_lf s then Some s
  else if Ascii.eqb (last s NUL) LF && no_lf (removelast s)
       then Some (removelast s)
       else None.

(** The named captures of a match. *)
Record Match := mkMatch {
  captured_status : QString;
  captured_message : QString
}.

Definition http_status_regex (subject : QString) : option Match :=
  s1 <- lit (bytes "HTTP/") subject ;;
  v1 <- digit s1 ;;
  s2 <- lit (bytes ".") (snd v1) ;;
  v2 <- digit s2 ;;
  s3 <- lit [SP] (snd v2) ;;
  d1 <- digit s3 ;;
  d2 <- digit (snd d1) ;;
  d3 <- digit (snd d2) ;;
  s4 <- lit [SP] (snd d3) ;;
  m <- dot_star_eol s4 ;;
  Some (mkMatch [fst d1; fst d2; fst d3] m).

End Regex.

(* ===================================================================== *)
(** ** The reply object *)
(* ===================================================================== *)

(** The values of [QNetworkReply::NetworkError] the file uses. *)
Inductive NetworkError : Set :=
| NoError
| ProtocolInvalidOperationError
| AuthenticationRequiredError
| ContentAccessDenied
| ContentNotFoundError
| ContentConflictError
| InternalServerError
| UnknownServerError
| UnknownContentError
| ProtocolFailure
| OperationCanceledError.

(** The signals a reply emits. *)
Inductive Signal : Set :=
| sig_error (code : NetworkError)
| sig_finished.

(** The transport, as far as the file acts on it: whether it is connected,
    and what has been written to it. *)
Record QLocalSocket := mkSocket {
  connected : bool;
  written : QByteArray
}.

(** [QNetworkRequest]: the custom verb attribute and the URL as text. *)
Record QNetworkRequest := mkRequest {
  verb : QByteArray;
  url : QString
}.

(** The members of [LocalSocketReply], followed by the state it inherits
    from [QNetworkReply] and [QIODevice] (error, error string, the finished
    flag, the open mode) and by the signals emitted so far. *)
Record LocalSocketReply := mkReply {
  local_socket : option QLocalSocket;
  reply_data : QByteArray;
  content_data : QByteArray;
  offset : Z;
  chunked_transfer_encoding : bool;
  error : NetworkError;
  errorString : QString;
  isFinished : bool;
  isOpen : bool;
  emitted : list Signal
}.

Definition set_local_socket (k : option QLocalSocket) (s : LocalSocketReply) :=
  mkReply k (reply_data s) (content_data s) (offset s)
          (chunked_transfer_encoding s) (error s) (errorString s)
          (isFinished s) (isOpen s) (emitted s).

Definition set_reply_data (b : QByteArray) (s : LocalSocketReply) :=
  mkReply (local_socket s) b (content_data s) (offset s)
          (chunked_transfer_encoding s) (error s) (errorString s)
          (isFinished s) (isOpen s) (emitted s).

Definition set_content_data (b : QByteArray) (s : LocalSocketReply) :=
  mkReply (local_socket s) (reply_data s) b (offset s)
          (chunked_transfer_encoding s) (error s) (errorString s)
          (isFinished s) (isOpen s) (emitted s).

Definition set_offset (o : Z) (s : LocalSocketReply) :=
  mkReply (local_socket s) (reply_data s) (content_data s) o
          (chunked_transfer_encoding s) (error s) (errorString s)
          (isFinished s) (isOpen s) (emitted s).

Definition set_chunked (c : bool) (s : LocalSocketReply) :=
  mkReply (local_socket s) (reply_data s) (content_data s) (offset s)
          c (error s) (errorString s)
          (isFinished s) (isOpen s) (emitted s).

(** [QNetworkReply::setError]. *)
Definition setError (code : NetworkError) (msg : QString) (s : LocalSocketReply) :=
  mkReply (local_socket s) (reply_data s) (content_data s) (offset s)
          (chunked_transfer_encoding s) code msg
          (isFinished s) (isOpen s) (emitted s).

(** [QNetworkReply::setFinished]. *)
Definition setFinished (f : bool) (s : LocalSocketReply) :=
  mkReply (local_socket s) (reply_data s) (content_data s) (offset s)
          (chunked_transfer_encoding s) (error s) (errorString s)
          f (isOpen s) (emitted s).

(** [QIODevice::open(ReadOnly)] and [QNetworkReply::close]: the open mode
    of the reply as a device. *)
Definition set_open (o : bool) (s : LocalSocketReply) :=
  mkReply (local_socket s) (reply_data s) (content_data s) (offset s)
          (chunked_transfer_encoding s) (error s) (errorString s)
          (isFinished s) o (emitted s).

Definition open : LocalSocketReply -> LocalSocketReply := set_open true.
Definition close : LocalSocketReply -> LocalSocketReply := set_open false.

(** [emit sig]. *)
Definition emit (sig : Signal) (s : LocalSocketReply) :=
  mkReply (local_socket s) (reply_data s) (content_data s) (offset s)
          (chunked_transfer_encoding s) (error s) (errorString s)
          (isFinished s) (isOpen s) (emitted s ++ [sig]).

(* ===================================================================== *)
(** ** [statusCodeFromHttp] *)
(* ===================================================================== *)

Definition statusCodeFromHttp (httpStatusCode : Z) : NetworkError :=
  if (httpStatusCode =? 400)%Z then ProtocolInvalidOperationError
  else if (httpStatusCode =? 401)%Z then AuthenticationRequiredError
  else if (httpStatusCode =? 403)%Z then ContentAccessDenied
  else if (httpStatusCode =? 404)%Z then ContentNotFoundError
  else if (httpStatusCode =? 409)%Z then ContentConflictError
  else if (httpStatusCode =? 500)%Z then InternalServerError
  else if (httpStatusCode >? 500)%Z then UnknownServerError
  else UnknownContentError.

(* ===================================================================== *)
(** ** [parse_status] *)
(* ===================================================================== *)

Definition parse_status (status : QByteArray) (s : LocalSocketReply)
  : LocalSocketReply :=
  match Regex.http_status_regex (Qt.fromLatin1 status) with
  | None =>
      emit (sig_error ProtocolFailure)
           (setError ProtocolFailure
                     (bytes "Malformed HTTP response from server") s)
  | Some http_status_match =>
      let '(statusCode, ok) :=
        Qt.toInt (Regex.captured_status http_status_match) in
      if (statusCode >=? 400)%Z then
        let error_code := statusCodeFromHttp statusCode in
        emit (sig_error error_code)
             (setError error_code
                       (Regex.captured_message http_status_match) s)
      else s
  end.

(* ===================================================================== *)
(** ** [parse_reply] *)
(* ===================================================================== *)

(** The test that ends the scan of the header lines. *)
Definition is_separator (line : QByteArray) : bool :=
  Qt.isEmpty line || Qt.startsWith line [CR].

(** The test that raises [chunked_transfer_encoding]. *)
Definition mentions_chunked (line : QByteArray) : bool :=
  Qt.contains line (bytes "Transfer-Encoding") &&
  Qt.contains line (bytes "chunked").

(** The step at the separator line, [rest] being the lines after it: the
    iterator moves on by one line, or by two when the reply is chunked (the
    line with the size of the chunk is skipped), and is dereferenced. Past
    the end of the list that is undefined, and the result is [None]. *)
Definition take_body (rest : list QByteArray) (s : LocalSocketReply)
  : option LocalSocketReply :=
  match nth_error rest (if chunked_transfer_encoding s then 1 else 0) with
  | Some body => Some (set_content_data (Qt.trimmed body) s)
  | None => None
  end.

(** The [for] loop of [parse_reply], [lines] being the lines from the
    iterator to the end. *)
Fixpoint scan_lines (lines : list QByteArray) (s : LocalSocketReply)
  : option LocalSocketReply :=
  match lines with
  | [] => Some s
  | line :: rest =>
      let s1 := if mentions_chunked line then set_chunked true s else s in
      if is_separator line then take_body rest s1
      else scan_lines rest s1
  end.

Definition parse_reply (s : LocalSocketReply) : option LocalSocketReply :=
  match Qt.split LF (reply_data s) with
  | [] => None
  | status :: lines => scan_lines lines (parse_status status s)
  end.

(* ===================================================================== *)
(** ** [read_reply] *)
(* ===================================================================== *)

(** One [local_socket->read(reply_data.data(), len)] that returned the
    bytes [chunk]: they are stored from the first byte of the buffer on. *)
Definition read_into (buf chunk : QByteArray) : QByteArray :=
  chunk ++ skipn (length chunk) buf.

(** The [do ... while (bytes_read > 0)] loop. [reads] lists what the
    successive calls of [read] return; the loop stops at the first call
    that returns nothing (the end of the list stands for such a call). The
    second component is [data_ptr], as an index into the buffer: the loop
    advances it and nothing reads it. *)
Fixpoint drain (reads : list QByteArray) (st : QByteArray * Z)
  : QByteArray * Z :=
  match reads with
  | [] => st
  | chunk :: rest =>
      let bytes_read := Z.of_nat (length chunk) in
      let st' := (read_into (fst st) chunk, (snd st + bytes_read)%Z) in
      if (bytes_read >? 0)%Z then drain rest st' else st'
  end.

(** The slot connected to [readyRead]. *)
Definition read_reply (reads : list QByteArray) (s : LocalSocketReply)
  : option LocalSocketReply :=
  let '(buf, data_ptr) := drain reads (reply_data s, 0%Z) in
  match parse_reply (set_reply_data buf s) with
  | Some s' => Some (emit sig_finished (setFinished true s'))
  | None => None
  end.

(* ===================================================================== *)
(** ** [readData] and [abort] *)
(* ===================================================================== *)

(** The result is the returned count, the bytes copied to [data] and the
    reply afterwards; [None] stands for a [memcpy] of a negative count. *)
Definition readData (maxSize : Z) (s : LocalSocketReply)
  : option (Z * QByteArray * LocalSocketReply) :=
  let size := Z.of_nat (length (content_data s)) in
  if (offset s <? size)%Z then
    let number := Z.min maxSize (size - offset s) in
    if (number <? 0)%Z then None
    else Some (number,
               firstn (Z.to_nat number)
                      (skipn (Z.to_nat (offset s)) (content_data s)),
               set_offset (offset s + number) s)
  else Some ((-1)%Z, [], s).

Definition abort (s : LocalSocketReply) : LocalSocketReply :=
  let s1 := close s in
  let s2 := setError OperationCanceledError (bytes "Operation canceled") s1 in
  let s3 := emit (sig_error OperationCanceledError) s2 in
  let s4 := setFinished true s3 in
  emit sig_finished s4.

(** [QLocalSocket::disconnectFromServer]. *)
Definition disconnectFromServer (k : QLocalSocket) : QLocalSocket :=
  mkSocket false (written k).

(** The destructor. *)
Definition destroy (s : LocalSocketReply) : LocalSocketReply :=
  match local_socket s with
  | Some k => set_local_socket (Some (disconnectFromServer k)) s
  | None => s
  end.

(** [QIODevice::read], the public reader in front of [readData], as far as
    this development needs it: on a device that is not open, and for a
    negative [maxSize], it returns -1 and does not call [readData];
    otherwise it hands the call on (the device's own buffering is left
    out). *)
Definition QIODevice_read (maxSize : Z) (s : LocalSocketReply)
  : option (Z * QByteArray * LocalSocketReply) :=
  if isOpen s then
    if (maxSize <? 0)%Z then Some ((-1)%Z, [], s) else readData maxSize s
  else Some ((-1)%Z, [], s).

(* ===================================================================== *)
(** ** [send_request] and the constructors *)
(* ===================================================================== *)

(** [operator==] of a byte array and a literal. *)
Fixpoint bytes_eqb (a b : QByteArray) : bool :=
  match a, b with
  | [], [] => true
  | x :: a', y :: b' => Ascii.eqb x y && bytes_eqb a' b'
  | _, _ => false
  end.

Section Encoder.

(** [multipass::version_string], declared in [multipass/version.h]. *)
Variable version_string : QByteArray.

(** The bytes [send_request] builds in [http_data]. [outgoingData] is the
    device's content, [None] for a null pointer; [size()] is its length and
    [readAll()] returns it whole. *)
Definition http_data (request : QNetworkRequest)
  (outgoingData : option QByteArray) : QByteArray :=
  let op := verb request in
  op ++ [SP] ++ url request ++ bytes " HTTP/1.1" ++ CRLF
  ++ bytes "Host: multipass" ++ CRLF
  ++ bytes "User-Agent: Multipass/" ++ version_string ++ CRLF
  ++ (if bytes_eqb op (bytes "POST") || bytes_eqb op (bytes "PUT") then
        bytes "Content-Type: application/x-www-form-urlencoded" ++ CRLF
        ++ match outgoingData with
           | Some body =>
               bytes "Content-Length: "
               ++ Qt.number (Z.of_nat (length body))
               ++ CRLF ++ CRLF
               ++ body
           | None => []
           end
      else [])
  ++ CRLF.

(** [QLocalSocket::write]. *)
Definition socket_write (data : QByteArray) (k : QLocalSocket) : QLocalSocket :=
  mkSocket (connected k) (written k ++ data).

Definition send_request (request : QNetworkRequest)
  (outgoingData : option QByteArray) (s : LocalSocketReply)
  : LocalSocketReply :=
  match local_socket s with
  | Some k =>
      set_local_socket
        (Some (socket_write (http_data request outgoingData) k)) s
  | None => s
  end.

(** [LocalSocketReply(local_socket, request, outgoingData)]: the buffer is
    [QByteArray(len, '\0')]; the other members start as the class declares
    them, the body empty, the offset 0 and the chunked flag down. *)
Definition construct (k : QLocalSocket) (request : QNetworkRequest)
  (outgoingData : option QByteArray) : LocalSocketReply :=
  send_request request outgoingData
    (open (mkReply (Some k) (repeat NUL (Z.to_nat len)) [] 0%Z false
                   NoError [] false false [])).

End Encoder.

(** [LocalSocketReply()], mainly for testing. *)
Definition construct_default : LocalSocketReply :=
  emit sig_finished
       (setFinished true
          (open (mkReply None [] [] 0%Z false NoError [] false false []))).

(* ===================================================================== *)
(** ** The reply driven by its callers *)
(* ===================================================================== *)

(** What can happen to a reply: the socket becomes readable (with the
    results of the reads of that burst), the owner reads, the owner
    aborts. *)
Inductive Event :=
| ev_readyRead (reads : list QByteArray)
| ev_read (maxSize : Z)
| ev_abort.

(** One event; a read also yields what it delivered. *)
Definition step (e : Event) (s : LocalSocketReply)
  : option (list (Z * QByteArray) * LocalSocketReply) :=
  match e with
  | ev_readyRead reads =>
      match read_reply reads s with
      | Some s' => Some ([], s')
      | None => None
      end
  | ev_read maxSize =>
      match QIODevice_read maxSize s with
      | Some (n, data, s') => Some ([(n, data)], s')
      | None => None
      end
  | ev_abort => Some ([], abort s)
  end.

(** A run of events: everything the reads delivered and the reply at the
    end, up to the first event with undefined behaviour (then there is no
    reply at the end). *)
Fixpoint run (evs : list Event) (s : LocalSocketReply)
  : list (Z * QByteArray) * option LocalSocketReply :=
  match evs with
  | [] => ([], Some s)
  | e :: rest =>
      match step e s with
      | Some (out, s') => (out ++ fst (run rest s'), snd (run rest s'))
      | None => ([], None)
      end
  end.

(** Successive calls of [readData], with what each returned. *)
Fixpoint readData_seq (sizes : list Z) (s : LocalSocketReply)
  : option (list (Z * QByteArray) * LocalSocketReply) :=
  match sizes with
  | [] => Some ([], s)
  | maxSize :: rest =>
      match readData maxSize s with
      | Some (n, data, s1) =>
          match readData_seq rest s1 with
          | Some (outs, s2) => Some ((n, data) :: outs, s2)
          | None => None
          end
      | None => None
      end
  end.

(* ===================================================================== *)
(** ** The wire formats and the tables of the specification

    These definitions follow the words of the specification, not the code:
    they say what is sent to the parser and what its results, and the
    bytes of the encoder, are compared with. *)
(* ===================================================================== *)

(** A status line with the three-digit [code] and the reason phrase. *)
Definition status_line (code : Z) (reason : QString) : QByteArray :=
  bytes "HTTP/1.1 " ++ Qt.number code ++ [SP] ++ reason.

(** The table of the status classifier: no error below 400, then the
    category of each code. *)
Definition classifier_table (code : Z) : option NetworkError :=
  if (code <? 400)%Z then None
  else if (code =? 400)%Z then Some ProtocolInvalidOperationError
  else if (code =? 401)%Z then Some AuthenticationRequiredError
  else if (code =? 403)%Z then Some ContentAccessDenied
  else if (code =? 404)%Z then Some ContentNotFoundError
  else if (code =? 409)%Z then Some ContentConflictError
  else if (code =? 500)%Z then Some InternalServerError
  else if ((501 <=? code) && (code <=? 599))%Z then Some UnknownServerError
  else if ((code =? 402) || ((405 <=? code) && (code <=? 499)))%Z
       then Some UnknownContentError
  else None.

(** The check that [code] is written with three digits which [toInt] reads
    back as [code]. *)
Definition three_digits_ok (code : Z) : bool :=
  match Qt.number code with
  | [d1; d2; d3] =>
      Qt.is_digit d1 && Qt.is_digit d2 && Qt.is_digit d3
      && (fst (Qt.toInt [d1; d2; d3]) =? code)%Z
      && snd (Qt.toInt [d1; d2; d3])
  | _ => false
  end.

(** A response on the wire: status line, header lines, the blank line and
    the body, every line ended by CR LF. *)
Definition response_wire (status : QByteArray) (headers : list QByteArray)
  (body : QByteArray) : QByteArray :=
  status ++ CRLF
  ++ concat (map (fun h => h ++ CRLF) headers)
  ++ CRLF ++ body.

(** The size of a chunk in hexadecimal. *)
Definition hex_size (n : nat) : QByteArray :=
  bytes (HexadecimalString.NilZero.string_of_uint (N.to_hex_uint (N.of_nat n))).

(** One chunk of a chunked body, and a chunked body: the chunks, then the
    chunk of size zero. *)
Definition encode_chunk (chunk : QByteArray) : QByteArray :=
  hex_size (length chunk) ++ CRLF ++ chunk ++ CRLF.

Definition encode_chunked (chunks : list QByteArray) : QByteArray :=
  concat (map encode_chunk chunks) ++ bytes "0" ++ CRLF ++ CRLF.

(** A header line that a separator test does not stop at and that does not
    run over a line: it has no line feed, is not empty and does not start
    with CR. *)
Definition header_ok (h : QByteArray) : bool :=
  no_lf h && negb (Qt.isEmpty h) && negb (Qt.startsWith h [CR]).

(** Letters folded to lower case, and the search that ignores case. *)
Definition to_lower (c : ascii) : ascii :=
  let n := nat_of_ascii c in
  if ((65 <=? n) && (n <=? 90))%nat then ascii_of_nat (n + 32) else c.

Definition contains_ci (a needle : QByteArray) : bool :=
  Qt.contains (map to_lower a) (map to_lower needle).

(** The flag raised, or not, by a test on a line. *)
Definition raise_chunked (b : bool) (s : LocalSocketReply) : LocalSocketReply :=
  if b then set_chunked true s else s.

(** A reply as the constructor leaves it, for a GET request over a
    connected socket. *)
Definition fresh_reply : LocalSocketReply :=
  construct (bytes "1.14.0") (mkSocket true [])
            (mkRequest (bytes "GET") (bytes "/1.0")) None.

(** What [http_data] holds after the three lines every request starts
    with. *)
Definition entity_part (op : QByteArray) (outgoingData : option QByteArray)
  : QByteArray :=
  (if bytes_eqb op (bytes "POST") || bytes_eqb op (bytes "PUT") then
     bytes "Content-Type: application/x-www-form-urlencoded" ++ CRLF
     ++ match outgoingData with
        | Some body =>
            bytes "Content-Length: "
            ++ Qt.number (Z.of_nat (length body))
            ++ CRLF ++ CRLF ++ body
        | None => []
        end
   else [])
  ++ CRLF.

(** A message read back from the wire: its lines, the header lines (from
    the second line up to the blank line, each without its CR), and the
    bytes after the blank line ([None] when there is no blank line). *)
Fixpoint take_headers (lines : list QByteArray)
  : list QByteArray * option (list QByteArray) :=
  match lines with
  | [] => ([], None)
  | l :: rest =>
      if Qt.isEmpty l || bytes_eqb l [CR] then ([], Some rest)
      else let '(h, b) := take_headers rest in (l :: h, b)
  end.

Fixpoint join_lines (lines : list QByteArray) : QByteArray :=
  match lines with
  | [] => []
  | [l] => l
  | l :: rest => l ++ LF :: join_lines rest
  end.

(** A line without the CR that ends it. *)
Fixpoint chomp (l : QByteArray) : QByteArray :=
  match l with
  | [] => []
  | [c] => if Ascii.eqb c CR then [] else [c]
  | c :: r => c :: chomp r
  end.

Definition header_lines (wire : QByteArray) : list QByteArray :=
  map chomp (fst (take_headers (tl (Qt.split LF wire)))).

Definition after_headers (wire : QByteArray) : option QByteArray :=
  option_map join_lines (snd (take_headers (tl (Qt.split LF wire)))).

(** The value of the header [name] among header lines. *)
Fixpoint header_value (name : QByteArray) (lines : list QByteArray)
  : option QByteArray :=
  match lines with
  | [] => None
  | l :: rest =>
      if Qt.startsWith l (name ++ bytes ": ")
      then Some (skipn (length name + 2) l)
      else header_value name rest
  end.

(* ===================================================================== *)
(** ** Observations on reads, requests, status lines and bursts *)
(* ===================================================================== *)

(** The sum of the sizes a sequence of reads asks for. *)
Definition total (sizes : list Z) : Z := fold_right Z.add 0%Z sizes.

(** The bytes a sequence of reads delivered, in order. *)
Definition delivered (outs : list (Z * QByteArray)) : QByteArray :=
  concat (map snd outs).

(** The bytes before the first [c] and the bytes after it. *)
Fixpoint take_until (c : ascii) (a : QByteArray)
  : option (QByteArray * QByteArray) :=
  match a with
  | [] => None
  | x :: r =>
      if Ascii.eqb x c then Some ([], r)
      else match take_until c r with
           | Some (before, after) => Some (x :: before, after)
           | None => None
           end
  end.

(** The bytes in front of a given end. *)
Definition strip_suffix (suffix a : QByteArray) : option QByteArray :=
  option_map (@rev ascii) (Regex.lit (rev suffix) (rev a)).

(** A request line read back by a server: the method up to the first
    space, and the target between that space and the protocol version
    that ends the line. *)
Definition parse_request_line (line : QByteArray)
  : option (QByteArray * QByteArray) :=
  match take_until SP line with
  | Some (method, rest) =>
      match strip_suffix (bytes " HTTP/1.1" ++ [CR]) rest with
      | Some target => Some (method, target)
      | None => None
      end
  | None => None
  end.

(** A status line with any version digits and any three digits as code. *)
Definition any_status_line (v1 v2 d1 d2 d3 : ascii) (reason : QString)
  : QByteArray :=
  bytes "HTTP/" ++ [v1] ++ bytes "." ++ [v2] ++ [SP] ++ [d1; d2; d3]
  ++ [SP] ++ reason.

(** A response on the wire whose lines end with a bare line feed. *)
Definition response_wire_lf (status : QByteArray) (headers : list QByteArray)
  (body : QByteArray) : QByteArray :=
  status ++ [LF]
  ++ concat (map (fun h => h ++ [LF]) headers)
  ++ [LF] ++ body.

(** The reads of an event fit a buffer of [n] bytes. *)
Definition reads_fit (n : nat) (e : Event) : bool :=
  match e with
  | ev_readyRead reads => forallb (fun r => (length r <=? n)%nat) reads
  | ev_read _ => true
  | ev_abort => true
  end.

(** The sum of the lengths of the reads of a burst. *)
Definition bytes_of (reads : list QByteArray) : Z :=
  fold_right (fun r n => (Z.of_nat (length r) + n)%Z) 0%Z reads.

(* ===================================================================== *)
(** * Lemmas on bytes and lines *)
(* ===================================================================== *)

Lemma no_lf_cons c a :
  no_lf (c :: a) = negb (Ascii.eqb LF c) && no_lf a.
Proof. unfold no_lf. cbn [existsb]. now rewrite negb_orb. Qed.

Lemma no_nul_cons c a :
  no_nul (c :: a) = negb (Ascii.eqb NUL c) && no_nul a.
Proof. unfold no_nul. cbn [existsb]. now rewrite negb_orb. Qed.

Lemma no_lf_app a b : no_lf (a ++ b) = no_lf a && no_lf b.
Proof.
  unfold no_lf. rewrite existsb_app, negb_orb. reflexivity.
Qed.

Lemma split_not_nil sep a : Qt.split sep a <> [].
Proof.
  destruct a as [|c r]; simpl; [discriminate|].
  destruct (Ascii.eqb c sep); [discriminate|].
  destruct (Qt.split sep r); discriminate.
Qed.

Lemma split_hd_tl sep a :
  Qt.split sep a = hd [] (Qt.split sep a) :: tl (Qt.split sep a).
Proof.
  pose proof (split_not_nil sep a) as H.
  destruct (Qt.split sep a); [congruence | reflexivity].
Qed.

(** A piece without line feed in front of the rest joins the first line of
    the rest. *)
Lemma split_app_no_lf a b :
  no_lf a = true ->
  Qt.split LF (a ++ b) =
  (a ++ hd [] (Qt.split LF b)) :: tl (Qt.split LF b).
Proof.
  induction a as [|c a IH]; intros Ha.
  - simpl. apply split_hd_tl.
  - rewrite no_lf_cons in Ha. apply andb_true_iff in Ha as [Hc Ha].
    simpl. rewrite Ascii.eqb_sym in Hc.
    apply negb_true_iff in Hc. rewrite Hc.
    rewrite (IH Ha). reflexivity.
Qed.

(** A line, its line feed, and the lines after it. *)
Lemma split_line a r :
  no_lf a = true ->
  Qt.split LF (a ++ LF :: r) = a :: Qt.split LF r.
Proof.
  intros Ha. rewrite (split_app_no_lf _ _ Ha). simpl.
  rewrite app_nil_r. reflexivity.
Qed.

Lemma split_crlf a r :
  no_lf a = true ->
  Qt.split LF (a ++ CRLF ++ r) = (a ++ [CR]) :: Qt.split LF r.
Proof.
  intros Ha. unfold CRLF.
  change (a ++ [CR; LF] ++ r) with (a ++ [CR] ++ LF :: r).
  rewrite app_assoc. apply split_line.
  rewrite no_lf_app, Ha. reflexivity.
Qed.

(** Joining the lines gives the bytes back. *)
Lemma join_split a : join_lines (Qt.split LF a) = a.
Proof.
  induction a as [|c r IH]; [reflexivity|].
  simpl. destruct (Ascii.eqb_spec c LF) as [->|Hc].
  - pose proof (split_not_nil LF r) as Hn.
    simpl. destruct (Qt.split LF r) as [|l ls]; [congruence|].
    rewrite IH. reflexivity.
  - pose proof (split_not_nil LF r) as Hn.
    destruct (Qt.split LF r) as [|l ls]; [congruence|].
    destruct ls as [|l' ls']; simpl in *; rewrite <- IH; reflexivity.
Qed.

(* ===================================================================== *)
(** * The status line and its classification *)
(* ===================================================================== *)

Lemma fromLatin1_app a b :
  no_nul a = true -> Qt.fromLatin1 (a ++ b) = a ++ Qt.fromLatin1 b.
Proof.
  induction a as [|c a IH]; intros Ha; [reflexivity|].
  rewrite no_nul_cons in Ha. apply andb_true_iff in Ha as [Hc Ha].
  rewrite Ascii.eqb_sym in Hc. apply negb_true_iff in Hc.
  simpl. rewrite Hc. f_equal. apply IH. exact Ha.
Qed.

Lemma fromLatin1_no_nul a : no_nul a = true -> Qt.fromLatin1 a = a.
Proof.
  intros Ha. rewrite <- (app_nil_r a) at 1.
  rewrite (fromLatin1_app _ _ Ha). simpl. apply app_nil_r.
Qed.

Lemma is_digit_not_nul d : Qt.is_digit d = true -> Ascii.eqb d NUL = false.
Proof.
  intros Hd. destruct (Ascii.eqb_spec d NUL) as [->|]; [discriminate|reflexivity].
Qed.

Lemma dot_star_eol_no_lf m :
  no_lf m = true -> Regex.dot_star_eol m = Some m.
Proof. intros Hm. unfold Regex.dot_star_eol. now rewrite Hm. Qed.

Lemma startsWith_app p s : Qt.startsWith (p ++ s) p = true.
Proof.
  induction p as [|c p IH]; [destruct s; reflexivity|].
  simpl. now rewrite Ascii.eqb_refl, IH.
Qed.

Lemma lit_app p s : Regex.lit p (p ++ s) = Some s.
Proof.
  unfold Regex.lit. rewrite startsWith_app. f_equal.
  induction p as [|c p IH]; [reflexivity | exact IH].
Qed.

Lemma digit_cons c s :
  Qt.is_digit c = true -> Regex.digit (c :: s) = Some (c, s).
Proof. intros Hc. unfold Regex.digit. now rewrite Hc. Qed.

(** The pattern on a line made of the literal parts, three digits and a
    message without line feed. *)
Lemma regex_on_status_line d1 d2 d3 reason :
  Qt.is_digit d1 = true -> Qt.is_digit d2 = true -> Qt.is_digit d3 = true ->
  no_lf reason = true -> no_nul reason = true ->
  Regex.http_status_regex
    (Qt.fromLatin1 (bytes "HTTP/1.1 " ++ [d1; d2; d3] ++ [SP] ++ reason))
  = Some (Regex.mkMatch [d1; d2; d3] reason).
Proof.
  intros H1 H2 H3 Hlf Hnul.
  cbn [bytes list_ascii_of_string app Qt.fromLatin1].
  rewrite (is_digit_not_nul _ H1), (is_digit_not_nul _ H2),
          (is_digit_not_nul _ H3).
  cbn [Ascii.eqb Bool.eqb NUL SP].
  rewrite (fromLatin1_no_nul _ Hnul).
  change (Regex.http_status_regex
            (bytes "HTTP/" ++ "1"%char :: bytes "." ++ "1"%char :: [SP]
             ++ d1 :: d2 :: d3 :: [SP] ++ reason)
          = Some (Regex.mkMatch [d1; d2; d3] reason)).
  unfold Regex.http_status_regex.
  rewrite lit_app, (digit_cons "1" _ eq_refl). cbn [snd fst].
  rewrite lit_app, (digit_cons "1" _ eq_refl). cbn [snd fst].
  rewrite lit_app, (digit_cons d1 _ H1). cbn [snd fst].
  rewrite (digit_cons d2 _ H2). cbn [snd fst].
  rewrite (digit_cons d3 _ H3). cbn [snd fst].
  rewrite lit_app, (dot_star_eol_no_lf _ Hlf). reflexivity.
Qed.

Lemma three_digits_all :
  forallb (fun n => three_digits_ok (Z.of_nat n)) (seq 100 900) = true.
Proof. vm_compute. reflexivity. Qed.

Lemma number_three_digits code :
  (100 <= code <= 999)%Z ->
  exists d1 d2 d3,
    Qt.number code = [d1; d2; d3]
    /\ Qt.is_digit d1 = true /\ Qt.is_digit d2 = true
    /\ Qt.is_digit d3 = true
    /\ Qt.toInt [d1; d2; d3] = (code, true).
Proof.
  intros Hc.
  pose proof three_digits_all as Hall.
  rewrite forallb_forall in Hall.
  specialize (Hall (Z.to_nat code)).
  rewrite Z2Nat.id in Hall by lia.
  assert (Hin : In (Z.to_nat code) (seq 100 900)) by (apply in_seq; lia).
  specialize (Hall Hin). clear Hin. unfold three_digits_ok in Hall.
  destruct (Qt.number code) as [|d1 [|d2 [|d3 [|? ?]]]]; try discriminate.
  apply andb_true_iff in Hall as [Hall Hok].
  apply andb_true_iff in Hall as [Hall Hv].
  apply andb_true_iff in Hall as [Hall H3].
  apply andb_true_iff in Hall as [H1 H2].
  exists d1, d2, d3. repeat split; try assumption.
  destruct (Qt.toInt [d1; d2; d3]) as [v ok]. cbn [fst snd] in Hv, Hok.
  f_equal; [now apply Z.eqb_eq | assumption].
Qed.

Lemma classifier_table_code code :
  (100 <= code <= 599)%Z ->
  classifier_table code =
  if (code >=? 400)%Z then Some (statusCodeFromHttp code) else None.
Proof.
  intros Hc. unfold classifier_table, statusCodeFromHttp.
  repeat match goal with
  | |- context [(?a <? ?b)%Z] => destruct (Z.ltb_spec a b)
  | |- context [(?a =? ?b)%Z] => destruct (Z.eqb_spec a b)
  | |- context [(?a >=? ?b)%Z] => destruct (Z.geb_spec a b)
  | |- context [(?a >? ?b)%Z] => destruct (Z.gtb_spec a b)
  | |- context [(?a <=? ?b)%Z] => destruct (Z.leb_spec a b)
  end; simpl; try reflexivity; try lia.
Qed.

(** What [parse_status] does on the status line of a code. *)
Lemma parse_status_status_line code reason s :
  (100 <= code <= 999)%Z ->
  no_lf reason = true -> no_nul reason = true ->
  parse_status (status_line code reason) s =
  if (code >=? 400)%Z
  then emit (sig_error (statusCodeFromHttp code))
            (setError (statusCodeFromHttp code) reason s)
  else s.
Proof.
  intros Hc Hlf Hnul.
  destruct (number_three_digits code Hc)
    as (d1 & d2 & d3 & Hn & H1 & H2 & H3 & Hint).
  unfold parse_status, status_line. rewrite Hn.
  rewrite (regex_on_status_line d1 d2 d3 reason H1 H2 H3 Hlf Hnul).
  cbn [Regex.captured_status Regex.captured_message].
  rewrite Hint. reflexivity.
Qed.

(** C2. For every status code from 100 to 599 the classification is a
    function of the code that follows the table: [parse_status] on the
    status line of the code leaves the reply without error below 400 and
    otherwise sets the category of the table (with the reason phrase as
    message); row by row, 400 is an invalid operation, 401 asks for
    authentication, 403 is an access denial, 404 is not found, 409 is a
    conflict, 500 is an internal server error, every other code from 501 to
    599 is an unknown server error, and 402 and every other code from 405 to
    499 is an unknown content error. *)
Theorem status_classifier_follows_table
  (code : Z) (reason : QString) (s : LocalSocketReply) :
  (100 <= code <= 599)%Z ->
  no_lf reason = true -> no_nul reason = true ->
  parse_status (status_line code reason) s =
    match classifier_table code with
    | None => s
    | Some category => emit (sig_error category) (setError category reason s)
    end
  /\ ((code < 400)%Z -> classifier_table code = None)
  /\ ((400 <= code)%Z -> classifier_table code = Some (statusCodeFromHttp code))
  /\ (code = 400%Z -> statusCodeFromHttp code = ProtocolInvalidOperationError)
  /\ (code = 401%Z -> statusCodeFromHttp code = AuthenticationRequiredError)
  /\ (code = 403%Z -> statusCodeFromHttp code = ContentAccessDenied)
  /\ (code = 404%Z -> statusCodeFromHttp code = ContentNotFoundError)
  /\ (code = 409%Z -> statusCodeFromHttp code = ContentConflictError)
  /\ (code = 500%Z -> statusCodeFromHttp code = InternalServerError)
  /\ ((501 <= code <= 599)%Z -> statusCodeFromHttp code = UnknownServerError)
  /\ ((code = 402 \/ 405 <= code <= 499 /\ code <> 409)%Z ->
      statusCodeFromHttp code = UnknownContentError).
Proof.
  intros Hc Hlf Hnul.
  split.
  { rewrite parse_status_status_line by (assumption || lia).
    rewrite (classifier_table_code code Hc).
    destruct (code >=? 400)%Z; reflexivity. }
  split.
  { intros Hlt. rewrite (classifier_table_code code Hc).
    destruct (Z.geb_spec code 400); [lia | reflexivity]. }
  split.
  { intros Hge. rewrite (classifier_table_code code Hc).
    destruct (Z.geb_spec code 400); [reflexivity | lia]. }
  repeat split; intros Hrow; unfold statusCodeFromHttp;
    repeat match goal with
    | |- context [(?a =? ?b)%Z] => destruct (Z.eqb_spec a b)
    | |- context [(?a >? ?b)%Z] => destruct (Z.gtb_spec a b)
    end; try reflexivity; lia.
Qed.

Lemma status_classifier_follows_table_witness :
  (100 <= 404 <= 599)%Z
  /\ no_lf (bytes "Not Found") = true
  /\ no_nul (bytes "Not Found") = true
  /\ parse_status (status_line 404 (bytes "Not Found")) construct_default =
     emit (sig_error ContentNotFoundError)
          (setError ContentNotFoundError (bytes "Not Found") construct_default).
Proof.
  split; [lia|]. split; [reflexivity|]. split; [reflexivity|].
  apply (status_classifier_follows_table
           404 (bytes "Not Found") construct_default);
    [lia | reflexivity | reflexivity].
Defined.

(* ===================================================================== *)
(** * The sequential reader *)
(* ===================================================================== *)

(** C8. Once the cursor has reached the end of the body, every further
    call of [readData], whatever size it asks for and however many calls
    are made, returns -1 (no more data), delivers no bytes and leaves the
    reply as it was: the cursor stays, no byte is returned twice, and no
    error is set or signalled. The public reader in front of it does the
    same. *)
Theorem readData_after_end_of_body (s : LocalSocketReply) (sizes : list Z) :
  (Z.of_nat (length (content_data s)) <= offset s)%Z ->
  readData_seq sizes s = Some (map (fun _ => ((-1)%Z, [])) sizes, s)
  /\ forall maxSize, QIODevice_read maxSize s = Some ((-1)%Z, [], s).
Proof.
  intros Hend.
  assert (Hone : forall maxSize, readData maxSize s = Some ((-1)%Z, [], s)).
  { intros maxSize. unfold readData.
    destruct (Z.ltb_spec (offset s) (Z.of_nat (length (content_data s))));
      [lia | reflexivity]. }
  split.
  - induction sizes as [|maxSize sizes IH]; [reflexivity|].
    cbn [readData_seq map]. rewrite Hone, IH. reflexivity.
  - intros maxSize. unfold QIODevice_read. rewrite Hone.
    destruct (isOpen s), (maxSize <? 0)%Z; reflexivity.
Qed.

Lemma readData_after_end_of_body_witness :
  let s := set_offset 5 (set_content_data (bytes "hello") construct_default) in
  (Z.of_nat (length (content_data s)) <= offset s)%Z
  /\ readData_seq [10%Z; 0%Z; 1%Z] s
     = Some ([((-1)%Z, []); ((-1)%Z, []); ((-1)%Z, [])], s).
Proof.
  split; [simpl; lia|].
  apply (proj1 (readData_after_end_of_body
                  (set_offset 5
                     (set_content_data (bytes "hello") construct_default))
                  [10%Z; 0%Z; 1%Z] ltac:(simpl; lia))).
Defined.

(* ===================================================================== *)
(** * Cancellation *)
(* ===================================================================== *)

Lemma parse_status_isOpen status s : isOpen (parse_status status s) = isOpen s.
Proof.
  unfold parse_status.
  destruct (Regex.http_status_regex (Qt.fromLatin1 status)); [|reflexivity].
  destruct (Qt.toInt (Regex.captured_status m)) as [statusCode ok].
  destruct (statusCode >=? 400)%Z; reflexivity.
Qed.

Lemma scan_lines_isOpen lines :
  forall s s', scan_lines lines s = Some s' -> isOpen s' = isOpen s.
Proof.
  induction lines as [|line rest IH]; intros s s' H; simpl in H.
  - now inversion H.
  - set (s1 := if mentions_chunked line then set_chunked true s else s) in *.
    assert (H1 : isOpen s1 = isOpen s)
      by (subst s1; destruct (mentions_chunked line); reflexivity).
    destruct (is_separator line).
    + unfold take_body in H.
      destruct (nth_error rest _); inversion H; subst. exact H1.
    + rewrite (IH _ _ H). exact H1.
Qed.

Lemma read_reply_isOpen reads s s' :
  read_reply reads s = Some s' -> isOpen s' = isOpen s.
Proof.
  unfold read_reply, parse_reply.
  destruct (drain reads (reply_data s, 0%Z)) as [buf data_ptr].
  cbn [reply_data set_reply_data].
  destruct (Qt.split LF buf) as [|status lines]; [discriminate|].
  destruct (scan_lines lines _) as [s1|] eqn:Hscan; [|discriminate].
  intros H; inversion H; subst; clear H.
  cbn [isOpen emit setFinished].
  rewrite (scan_lines_isOpen _ _ _ Hscan), parse_status_isOpen. reflexivity.
Qed.

(** On a closed reply no run of events delivers a byte. *)
Lemma run_closed evs :
  forall s, isOpen s = false ->
  Forall (fun out => out = ((-1)%Z, @nil ascii)) (fst (run evs s)).
Proof.
  induction evs as [|e evs IH]; intros s Hs; [constructor|].
  cbn [run]. destruct e as [reads|maxSize|]; cbn [step].
  - destruct (read_reply reads s) as [s'|] eqn:Hr; [|constructor].
    cbn [app fst]. apply IH. rewrite (read_reply_isOpen _ _ _ Hr). exact Hs.
  - unfold QIODevice_read. rewrite Hs. cbn [app fst].
    constructor; [reflexivity | apply IH; exact Hs].
  - cbn [app fst]. apply IH. reflexivity.
Qed.

Lemma read_reply_isFinished reads s s' :
  read_reply reads s = Some s' -> isFinished s' = true.
Proof.
  unfold read_reply.
  destruct (drain reads (reply_data s, 0%Z)) as [buf data_ptr].
  destruct (parse_reply _); [|discriminate].
  intros H; inversion H; reflexivity.
Qed.

(** A reply that has not finished has no body yet: the body is only set by
    the parse that finishes the reply. *)
Lemma run_unfinished_no_body evs :
  forall s s',
  (isFinished s = true \/ content_data s = []) ->
  snd (run evs s) = Some s' ->
  isFinished s' = true \/ content_data s' = [].
Proof.
  induction evs as [|e evs IH]; intros s s' Hs Hrun.
  - cbn in Hrun. inversion Hrun; subst. exact Hs.
  - cbn [run] in Hrun. destruct e as [reads|maxSize|]; cbn [step] in Hrun.
    + destruct (read_reply reads s) as [s1|] eqn:Hr; [|discriminate].
      cbn [snd] in Hrun. apply (IH s1 s'); [|exact Hrun].
      left. exact (read_reply_isFinished _ _ _ Hr).
    + destruct (QIODevice_read maxSize s) as [[[n data] s1]|] eqn:Hr;
        [|discriminate].
      cbn [snd] in Hrun. apply (IH s1 s'); [|exact Hrun].
      unfold QIODevice_read, readData in Hr.
      repeat match type of Hr with
      | (if ?c then _ else _) = _ => destruct c
      end; inversion Hr; subst; exact Hs.
    + cbn [snd] in Hrun. apply (IH (abort s) s'); [|exact Hrun].
      left. reflexivity.
Qed.

(* ===================================================================== *)
(** * The read loop *)
(* ===================================================================== *)

(** C3 fails on the code. Every [read] of a burst stores its bytes from
    the first byte of the buffer on: after the reads AB and C the buffer
    starts with CB where ABC was received, although [data_ptr] has moved on
    by three. A well-formed response that arrives in two reads is then
    parsed from a buffer that starts with the second read, and the reply
    ends with a protocol failure. *)
Theorem read_reply_overwrites_buffer
  (b0 b1 b2 : ascii) (rest : QByteArray) :
  drain [bytes "AB"; bytes "C"] (b0 :: b1 :: b2 :: rest, 0%Z)
  = ("C"%char :: "B"%char :: b2 :: rest, 3%Z)
  /\ option_map
       (fun s => (firstn 8 (reply_data s), error s))
       (read_reply
          [bytes "HTTP/1.1 200 OK" ++ CRLF ++ CRLF; bytes "hello" ++ [LF]]
          (construct (bytes "1.14.0") (mkSocket true [])
                     (mkRequest (bytes "GET") (bytes "/1.0")) None))
     = Some (bytes "hello" ++ [LF] ++ bytes ".1", ProtocolFailure).
Proof.
  split; [reflexivity|]. vm_compute. reflexivity.
Qed.

(* ===================================================================== *)
(** * The request encoder *)
(* ===================================================================== *)

Lemma bytes_eqb_eq a : forall b, bytes_eqb a b = true <-> a = b.
Proof.
  induction a as [|x a IH]; intros [|y b]; simpl; split; intros H;
    try reflexivity; try discriminate.
  - apply andb_true_iff in H as [Hx Ha].
    apply Ascii.eqb_eq in Hx. apply IH in Ha. now subst.
  - inversion H; subst. rewrite Ascii.eqb_refl. now apply IH.
Qed.

Lemma no_lf_decimal d :
  no_lf (bytes (DecimalString.NilEmpty.string_of_uint d)) = true.
Proof.
  induction d; cbn [DecimalString.NilEmpty.string_of_uint bytes
                    list_ascii_of_string];
    try reflexivity; rewrite no_lf_cons; fold (bytes (DecimalString.NilEmpty.string_of_uint d));
    rewrite IHd; reflexivity.
Qed.

Lemma no_lf_number n : no_lf (Qt.number n) = true.
Proof.
  assert (Hu : forall d,
             no_lf (bytes (DecimalString.NilZero.string_of_uint d)) = true).
  { intros d. unfold DecimalString.NilZero.string_of_uint.
    destruct d; try reflexivity; apply no_lf_decimal. }
  unfold Qt.number, DecimalString.NilZero.string_of_int.
  destruct (Z.to_int n) as [d|d]; [apply Hu|].
  cbn [bytes list_ascii_of_string]. rewrite no_lf_cons.
  fold (bytes (DecimalString.NilZero.string_of_uint d)). rewrite Hu.
  reflexivity.
Qed.

Lemma chomp_cr a : chomp (a ++ [CR]) = a.
Proof.
  induction a as [|c a IH]; [reflexivity|].
  cbn [app chomp]. destruct (a ++ [CR]) eqn:E.
  - destruct a; discriminate.
  - rewrite IH. reflexivity.
Qed.

Section EncoderFacts.

Variable version_string : QByteArray.
Hypothesis version_no_lf : no_lf version_string = true.

Variables (op : QByteArray) (target : QString).
Hypothesis op_no_lf : no_lf op = true.
Hypothesis target_no_lf : no_lf target = true.

Lemma http_data_lines outgoingData :
  Qt.split LF (http_data version_string (mkRequest op target) outgoingData)
  = (op ++ [SP] ++ target ++ bytes " HTTP/1.1" ++ [CR])
    :: (bytes "Host: multipass" ++ [CR])
    :: (bytes "User-Agent: Multipass/" ++ version_string ++ [CR])
    :: Qt.split LF (entity_part op outgoingData).
Proof.
  unfold http_data. cbn [verb url].
  replace (op ++ [SP] ++ target ++ bytes " HTTP/1.1" ++ CRLF
           ++ bytes "Host: multipass" ++ CRLF
           ++ bytes "User-Agent: Multipass/" ++ version_string ++ CRLF
           ++ _ ++ CRLF)
    with ((op ++ [SP] ++ target ++ bytes " HTTP/1.1") ++ CRLF
          ++ bytes "Host: multipass" ++ CRLF
          ++ (bytes "User-Agent: Multipass/" ++ version_string) ++ CRLF
          ++ entity_part op outgoingData)
    by (unfold entity_part; rewrite <- !app_assoc; reflexivity).
  rewrite split_crlf
    by (rewrite !no_lf_app, op_no_lf, target_no_lf; reflexivity).
  rewrite split_crlf by reflexivity.
  rewrite split_crlf by (rewrite no_lf_app, version_no_lf; reflexivity).
  rewrite <- !app_assoc. reflexivity.
Qed.

Lemma entity_part_other outgoingData :
  bytes_eqb op (bytes "POST") || bytes_eqb op (bytes "PUT") = false ->
  Qt.split LF (entity_part op outgoingData) = [[CR]; []].
Proof. intros H. unfold entity_part. rewrite H. reflexivity. Qed.

Lemma entity_part_no_body :
  bytes_eqb op (bytes "POST") || bytes_eqb op (bytes "PUT") = true ->
  Qt.split LF (entity_part op None)
  = [bytes "Content-Type: application/x-www-form-urlencoded" ++ [CR];
     [CR]; []].
Proof. intros H. unfold entity_part. rewrite H. reflexivity. Qed.

Lemma entity_part_body body :
  bytes_eqb op (bytes "POST") || bytes_eqb op (bytes "PUT") = true ->
  Qt.split LF (entity_part op (Some body))
  = (bytes "Content-Type: application/x-www-form-urlencoded" ++ [CR])
    :: (bytes "Content-Length: " ++ Qt.number (Z.of_nat (length body))
        ++ [CR])
    :: [CR]
    :: Qt.split LF (body ++ CRLF).
Proof.
  intros H. unfold entity_part. rewrite H.
  rewrite <- !app_assoc.
  rewrite split_crlf by reflexivity.
  replace (bytes "Content-Length: " ++ Qt.number (Z.of_nat (length body))
           ++ CRLF ++ CRLF ++ body ++ CRLF)
    with ((bytes "Content-Length: " ++ Qt.number (Z.of_nat (length body)))
          ++ CRLF ++ [] ++ CRLF ++ body ++ CRLF)
    by (rewrite <- !app_assoc; reflexivity).
  rewrite split_crlf by (rewrite no_lf_app, no_lf_number; reflexivity).
  rewrite split_crlf by reflexivity.
  rewrite <- !app_assoc. reflexivity.
Qed.

End EncoderFacts.

Lemma take_headers_cons l rest :
  Qt.isEmpty l || bytes_eqb l [CR] = false ->
  take_headers (l :: rest)
  = (l :: fst (take_headers rest), snd (take_headers rest)).
Proof.
  intros H. cbn [take_headers]. rewrite H.
  destruct (take_headers rest); reflexivity.
Qed.

Lemma take_headers_blank rest : take_headers ([CR] :: rest) = ([], Some rest).
Proof. reflexivity. Qed.

Lemma post_or_put_true op :
  op = bytes "POST" \/ op = bytes "PUT" ->
  bytes_eqb op (bytes "POST") || bytes_eqb op (bytes "PUT") = true.
Proof. intros [-> | ->]; reflexivity. Qed.

Lemma post_or_put_false op :
  op <> bytes "POST" -> op <> bytes "PUT" ->
  bytes_eqb op (bytes "POST") || bytes_eqb op (bytes "PUT") = false.
Proof.
  intros H1 H2. apply orb_false_iff. split.
  - destruct (bytes_eqb op (bytes "POST")) eqn:E; [|reflexivity].
    apply bytes_eqb_eq in E. contradiction.
  - destruct (bytes_eqb op (bytes "PUT")) eqn:E; [|reflexivity].
    apply bytes_eqb_eq in E. contradiction.
Qed.

(** The header lines and the part after them, for the three shapes of a
    request. *)
Lemma request_read_back_other version_string op target outgoingData :
  no_lf version_string = true -> no_lf op = true -> no_lf target = true ->
  op <> bytes "POST" -> op <> bytes "PUT" ->
  let wire := http_data version_string (mkRequest op target) outgoingData in
  header_lines wire
  = [bytes "Host: multipass"; bytes "User-Agent: Multipass/" ++ version_string]
  /\ after_headers wire = Some [].
Proof.
  intros Hv Hop Ht H1 H2 wire. subst wire.
  unfold header_lines, after_headers.
  rewrite (http_data_lines version_string Hv op target Hop Ht).
  rewrite (entity_part_other op outgoingData (post_or_put_false op H1 H2)).
  cbn [tl]. rewrite take_headers_cons by reflexivity.
  rewrite take_headers_cons by reflexivity.
  cbn [take_headers Qt.isEmpty bytes_eqb orb fst snd map option_map
       join_lines].
  rewrite app_assoc, !chomp_cr. split; reflexivity.
Qed.

Lemma request_read_back_no_body version_string op target :
  no_lf version_string = true -> no_lf op = true -> no_lf target = true ->
  op = bytes "POST" \/ op = bytes "PUT" ->
  let wire := http_data version_string (mkRequest op target) None in
  header_lines wire
  = [bytes "Host: multipass";
     bytes "User-Agent: Multipass/" ++ version_string;
     bytes "Content-Type: application/x-www-form-urlencoded"]
  /\ after_headers wire = Some [].
Proof.
  intros Hv Hop Ht Hpp wire. subst wire.
  unfold header_lines, after_headers.
  rewrite (http_data_lines version_string Hv op target Hop Ht).
  rewrite (entity_part_no_body op (post_or_put_true op Hpp)).
  cbn [tl]. rewrite take_headers_cons by reflexivity.
  rewrite take_headers_cons by reflexivity.
  rewrite take_headers_cons by reflexivity.
  cbn [take_headers Qt.isEmpty bytes_eqb orb fst snd map option_map
       join_lines].
  rewrite app_assoc, !chomp_cr. split; reflexivity.
Qed.

Lemma request_read_back_body version_string op target body :
  no_lf version_string = true -> no_lf op = true -> no_lf target = true ->
  op = bytes "POST" \/ op = bytes "PUT" ->
  let wire := http_data version_string (mkRequest op target) (Some body) in
  header_lines wire
  = [bytes "Host: multipass";
     bytes "User-Agent: Multipass/" ++ version_string;
     bytes "Content-Type: application/x-www-form-urlencoded";
     bytes "Content-Length: " ++ Qt.number (Z.of_nat (length body))]
  /\ after_headers wire = Some (body ++ CRLF).
Proof.
  intros Hv Hop Ht Hpp wire. subst wire.
  unfold header_lines, after_headers.
  rewrite (http_data_lines version_string Hv op target Hop Ht).
  rewrite (entity_part_body op body (post_or_put_true op Hpp)).
  cbn [tl]. rewrite take_headers_cons by reflexivity.
  rewrite take_headers_cons by reflexivity.
  rewrite take_headers_cons by reflexivity.
  rewrite take_headers_cons by reflexivity.
  rewrite take_headers_blank.
  cbn [fst snd map option_map].
  rewrite join_split.
  rewrite (app_assoc (bytes "User-Agent: Multipass/")).
  rewrite (app_assoc (bytes "Content-Length: ")).
  rewrite !chomp_cr. split; reflexivity.
Qed.

(** C10. A POST or PUT request carries the header line
    [Content-Type: application/x-www-form-urlencoded] whether or not a body
    is supplied; without a body it has no [Content-Length] line and nothing
    after the header block, with a body the [Content-Length] line comes
    after it. For every other method the header block is the [Host] and
    [User-Agent] lines only: no line of it starts with [Content-Type] or
    [Content-Length], whatever is supplied as body. *)
Theorem content_type_only_for_post_and_put
  (version_string op : QByteArray) (target : QString)
  (outgoingData : option QByteArray) :
  no_lf version_string = true -> no_lf op = true -> no_lf target = true ->
  let wire := http_data version_string (mkRequest op target) outgoingData in
  let host := bytes "Host: multipass" in
  let agent := bytes "User-Agent: Multipass/" ++ version_string in
  let ctype := bytes "Content-Type: application/x-www-form-urlencoded" in
  (op = bytes "POST" \/ op = bytes "PUT" ->
     In ctype (header_lines wire)
     /\ header_lines wire
        = [host; agent; ctype]
          ++ match outgoingData with
             | Some body =>
                 [bytes "Content-Length: "
                  ++ Qt.number (Z.of_nat (length body))]
             | None => []
             end
     /\ (outgoingData = None ->
         header_value (bytes "Content-Length") (header_lines wire) = None
         /\ after_headers wire = Some []))
  /\ (op <> bytes "POST" -> op <> bytes "PUT" ->
      header_lines wire = [host; agent]
      /\ forall h, In h (header_lines wire) ->
           Qt.startsWith h (bytes "Content-Type") = false
           /\ Qt.startsWith h (bytes "Content-Length") = false).
Proof.
  intros Hv Hop Ht wire host agent ctype. split.
  - intros Hpp.
    assert (Hlines : header_lines wire
                     = [host; agent; ctype]
                       ++ match outgoingData with
                          | Some body =>
                              [bytes "Content-Length: "
                               ++ Qt.number (Z.of_nat (length body))]
                          | None => []
                          end).
    { subst wire. destruct outgoingData as [body|].
      - apply (request_read_back_body version_string op target body
                 Hv Hop Ht Hpp).
      - apply (request_read_back_no_body version_string op target
                 Hv Hop Ht Hpp). }
    split; [rewrite Hlines; cbn; auto|]. split; [exact Hlines|].
    intros ->. split.
    + rewrite Hlines. reflexivity.
    + apply (request_read_back_no_body version_string op target
               Hv Hop Ht Hpp).
  - intros H1 H2.
    destruct (request_read_back_other version_string op target outgoingData
                Hv Hop Ht H1 H2) as [Hlines _].
    fold wire in Hlines. split; [exact Hlines|].
    rewrite Hlines. intros h [<-|[<-|[]]]; split; reflexivity.
Qed.

Lemma content_type_only_for_post_and_put_witness :
  no_lf (bytes "1.14.0") = true
  /\ no_lf (bytes "POST") = true
  /\ no_lf (bytes "/1.0/instances") = true
  /\ In (bytes "Content-Type: application/x-www-form-urlencoded")
        (header_lines
           (http_data (bytes "1.14.0")
              (mkRequest (bytes "POST") (bytes "/1.0/instances")) None)).
Proof.
  split; [reflexivity|]. split; [reflexivity|]. split; [reflexivity|].
  apply (proj1 (content_type_only_for_post_and_put
                  (bytes "1.14.0") (bytes "POST") (bytes "/1.0/instances")
                  None eq_refl eq_refl eq_refl)).
  left. reflexivity.
Defined.

(** C4 fails on the code in its second half. For a POST or PUT request
    with a body, the [Content-Length] line holds the decimal length of the
    body, but what follows the blank line is the body and then one more
    CR LF: [send_request] ends every request with a CR LF, which closes the
    header block when there is no body and comes after the body when there
    is one. *)
Theorem request_body_is_followed_by_crlf
  (version_string op : QByteArray) (target : QString) (body : QByteArray) :
  no_lf version_string = true -> no_lf op = true -> no_lf target = true ->
  op = bytes "POST" \/ op = bytes "PUT" ->
  let wire := http_data version_string (mkRequest op target) (Some body) in
  header_value (bytes "Content-Length") (header_lines wire)
  = Some (Qt.number (Z.of_nat (length body)))
  /\ after_headers wire = Some (body ++ CRLF)
  /\ after_headers wire <> Some body.
Proof.
  intros Hv Hop Ht Hpp wire.
  destruct (request_read_back_body version_string op target body
              Hv Hop Ht Hpp) as [Hlines Hafter].
  fold wire in Hlines, Hafter.
  split; [rewrite Hlines; reflexivity|]. split; [exact Hafter|].
  rewrite Hafter. intros H. inversion H as [E].
  apply (f_equal (@length ascii)) in E. rewrite length_app in E.
  simpl in E. lia.
Qed.

Lemma request_body_is_followed_by_crlf_witness :
  no_lf (bytes "1.14.0") = true
  /\ no_lf (bytes "POST") = true
  /\ no_lf (bytes "/1.0/instances") = true
  /\ (bytes "POST" = bytes "POST" \/ bytes "POST" = bytes "PUT")
  /\ after_headers
       (http_data (bytes "1.14.0")
          (mkRequest (bytes "POST") (bytes "/1.0/instances"))
          (Some (bytes "name=foo")))
     = Some (bytes "name=foo" ++ CRLF).
Proof.
  split; [reflexivity|]. split; [reflexivity|]. split; [reflexivity|].
  split; [left; reflexivity|].
  apply (request_body_is_followed_by_crlf
           (bytes "1.14.0") (bytes "POST") (bytes "/1.0/instances")
           (bytes "name=foo") eq_refl eq_refl eq_refl
           (or_introl eq_refl)).
Defined.

(* ===================================================================== *)
(** * The reply parser *)
(* ===================================================================== *)

(** One read of a burst. *)
Lemma drain_single wire buf p :
  drain [wire] (buf, p) = (read_into buf wire, (p + Z.of_nat (length wire))%Z).
Proof.
  cbn [drain fst snd]. destruct (Z.of_nat (length wire) >? 0)%Z; reflexivity.
Qed.

Lemma startsWith_app_other a c n :
  forall (Hn : n <> []) (Hc : existsb (Ascii.eqb c) n = false),
  Qt.startsWith (a ++ [c]) n = Qt.startsWith a n.
Proof.
  revert n. induction a as [|x a IH]; intros [|p n] Hn Hc; try congruence.
  - cbn [existsb] in Hc. apply orb_false_iff in Hc as [Hp _].
    cbn [app Qt.startsWith]. rewrite Hp. reflexivity.
  - cbn [existsb] in Hc. apply orb_false_iff in Hc as [_ Hc].
    cbn [app Qt.startsWith]. destruct n as [|q n]; [reflexivity|].
    rewrite IH; [reflexivity | discriminate | exact Hc].
Qed.

Lemma contains_app_other a c n :
  n <> [] -> existsb (Ascii.eqb c) n = false ->
  Qt.contains (a ++ [c]) n = Qt.contains a n.
Proof.
  intros Hn Hc. induction a as [|x a IH].
  - pose proof (startsWith_app_other [] c n Hn Hc) as E.
    cbn [app] in E. cbn [app Qt.contains]. rewrite E.
    destruct n; [congruence|]. reflexivity.
  - pose proof (startsWith_app_other (x :: a) c n Hn Hc) as E.
    cbn [app] in E. cbn [app Qt.contains]. rewrite E, IH. reflexivity.
Qed.

Lemma mentions_chunked_cr h : mentions_chunked (h ++ [CR]) = mentions_chunked h.
Proof.
  unfold mentions_chunked.
  rewrite !contains_app_other by (discriminate || reflexivity).
  reflexivity.
Qed.

Lemma is_separator_header h :
  header_ok h = true -> is_separator (h ++ [CR]) = false.
Proof.
  unfold header_ok, is_separator. intros H.
  apply andb_true_iff in H as [H Hcr]. apply andb_true_iff in H as [_ Hne].
  destruct h as [|x h]; [discriminate|].
  cbn in Hcr |- *. apply negb_true_iff in Hcr.
  rewrite andb_true_r in Hcr |- *. exact Hcr.
Qed.

Lemma raise_chunked_twice a b s :
  raise_chunked b (raise_chunked a s) = raise_chunked (a || b) s.
Proof. destruct a, b; reflexivity. Qed.

(** The loop over lines that are no separator, then a separator. *)
Lemma scan_lines_headers hl sep rest :
  forall s,
  forallb (fun l => negb (is_separator l)) hl = true ->
  is_separator sep = true ->
  scan_lines (hl ++ sep :: rest) s
  = take_body rest (raise_chunked (existsb mentions_chunked (hl ++ [sep])) s).
Proof.
  induction hl as [|l hl IH]; intros s Hhl Hsep.
  - cbn [app scan_lines existsb]. rewrite Hsep, orb_false_r. reflexivity.
  - cbn [forallb] in Hhl. apply andb_true_iff in Hhl as [Hl Hhl].
    apply negb_true_iff in Hl.
    cbn [app scan_lines existsb]. rewrite Hl.
    change (if mentions_chunked l then set_chunked true s else s)
      with (raise_chunked (mentions_chunked l) s).
    rewrite (IH _ Hhl Hsep), raise_chunked_twice. reflexivity.
Qed.

(** The lines of a response on the wire, followed by whatever the buffer
    holds after it. *)
Lemma response_lines status headers body tail :
  no_lf status = true -> forallb header_ok headers = true ->
  Qt.split LF (response_wire status headers body ++ tail)
  = (status ++ [CR])
    :: map (fun h => h ++ [CR]) headers
    ++ [CR] :: Qt.split LF (body ++ tail).
Proof.
  intros Hs Hh. unfold response_wire. rewrite <- !app_assoc.
  rewrite split_crlf by exact Hs. f_equal.
  induction headers as [|h headers IH].
  - cbn [map concat app]. apply (split_crlf [] (body ++ tail)). reflexivity.
  - cbn [forallb] in Hh. apply andb_true_iff in Hh as [Hh1 Hh].
    cbn [map concat]. rewrite <- !app_assoc.
    rewrite split_crlf.
    + cbn [app]. f_equal. apply IH. exact Hh.
    + unfold header_ok in Hh1.
      apply andb_true_iff in Hh1 as [Hh1 _].
      apply andb_true_iff in Hh1 as [Hh1 _]. exact Hh1.
Qed.

Lemma headers_no_separator headers :
  forallb header_ok headers = true ->
  forallb (fun l => negb (is_separator l)) (map (fun h => h ++ [CR]) headers)
  = true.
Proof.
  induction headers as [|h headers IH]; intros H; [reflexivity|].
  cbn [forallb] in H. apply andb_true_iff in H as [Hh H].
  cbn [map forallb]. rewrite (is_separator_header h Hh), (IH H). reflexivity.
Qed.

Lemma headers_mention_chunked headers :
  existsb mentions_chunked (map (fun h => h ++ [CR]) headers ++ [[CR]])
  = existsb mentions_chunked headers.
Proof.
  induction headers as [|h headers IH]; [reflexivity|].
  cbn [map app existsb]. rewrite mentions_chunked_cr, IH. reflexivity.
Qed.

(** [read_reply] on a response that arrives in one read. *)
Lemma read_reply_response status headers body s :
  no_lf status = true -> forallb header_ok headers = true ->
  let wire := response_wire status headers body in
  let tail := skipn (length wire) (reply_data s) in
  read_reply [wire] s
  = option_map
      (fun s' => emit sig_finished (setFinished true s'))
      (take_body
         (Qt.split LF (body ++ tail))
         (raise_chunked
            (existsb mentions_chunked headers)
            (parse_status (status ++ [CR])
                          (set_reply_data (wire ++ tail) s)))).
Proof.
  intros Hs Hh wire tail. unfold read_reply.
  rewrite drain_single. unfold read_into, parse_reply.
  cbn [reply_data set_reply_data]. fold wire. fold tail.
  unfold wire at 1. rewrite (response_lines status headers body tail Hs Hh).
  rewrite (scan_lines_headers _ [CR] _ _ (headers_no_separator headers Hh)
             eq_refl).
  rewrite headers_mention_chunked.
  destruct (take_body _ _); reflexivity.
Qed.

Ltac parse_status_cases status :=
  unfold parse_status;
  destruct (Regex.http_status_regex (Qt.fromLatin1 status)) as [m|];
  [ destruct (Qt.toInt (Regex.captured_status m)) as [statusCode ok];
    destruct (statusCode >=? 400)%Z | ];
  reflexivity.

Lemma parse_status_chunked status s :
  chunked_transfer_encoding (parse_status status s)
  = chunked_transfer_encoding s.
Proof. parse_status_cases status. Qed.

Lemma raise_chunked_flag b s :
  chunked_transfer_encoding (raise_chunked b s)
  = b || chunked_transfer_encoding s.
Proof. destruct b; reflexivity. Qed.

(** A body with a line feed leaves at least two lines after the
    separator. *)
Lemma split_two_lines body tail :
  no_lf body = false ->
  exists l0 l1 ls, Qt.split LF (body ++ tail) = l0 :: l1 :: ls.
Proof.
  induction body as [|c body IH]; intros H; [discriminate|].
  cbn [app Qt.split]. destruct (Ascii.eqb_spec c LF) as [->|Hc].
  - exists [], (hd [] (Qt.split LF (body ++ tail))),
           (tl (Qt.split LF (body ++ tail))).
    now rewrite <- split_hd_tl.
  - rewrite no_lf_cons in H.
    assert (Hb : no_lf body = false).
    { rewrite Ascii.eqb_sym in H. apply Ascii.eqb_neq in Hc.
      rewrite Hc in H. exact H. }
    destruct (IH Hb) as (l0 & l1 & ls & E). rewrite E.
    now exists (c :: l0), l1, ls.
Qed.

(** C6, as the code has it. The test on a header line is a search for the
    bytes of [Transfer-Encoding] and the bytes of [chunked], letter case
    included: after the parse of a response the chunked flag is up exactly
    when it was up before or one of the header lines holds both byte
    strings as they are written. (The body holds a line feed, so that the
    line the parser moves on to exists.) *)
Theorem chunked_detection_matches_exact_bytes
  (status : QByteArray) (headers : list QByteArray) (body : QByteArray)
  (s : LocalSocketReply) :
  no_lf status = true ->
  forallb header_ok headers = true ->
  no_lf body = false ->
  (Z.of_nat (length (response_wire status headers body)) <=? len)%Z = true ->
  exists s',
    read_reply [response_wire status headers body] s = Some s'
    /\ chunked_transfer_encoding s'
       = chunked_transfer_encoding s
         || existsb (fun h => Qt.contains h (bytes "Transfer-Encoding")
                              && Qt.contains h (bytes "chunked")) headers.
Proof.
  intros Hs Hh Hb _.
  rewrite (read_reply_response status headers body s Hs Hh).
  destruct (split_two_lines body
              (skipn (length (response_wire status headers body))
                     (reply_data s)) Hb) as (l0 & l1 & ls & E).
  rewrite E. unfold take_body.
  match goal with
  | |- context [nth_error _ (if ?c then 1 else 0)] => destruct c eqn:Hflag
  end; cbn [nth_error option_map]; eexists; (split; [reflexivity|]);
    cbn [chunked_transfer_encoding emit setFinished set_content_data];
    rewrite raise_chunked_flag, parse_status_chunked;
    cbn [chunked_transfer_encoding set_reply_data];
    apply orb_comm.
Qed.

Lemma chunked_detection_matches_exact_bytes_witness :
  let status := bytes "HTTP/1.1 200 OK" in
  let headers := [bytes "Content-Type: application/json";
                  bytes "Transfer-Encoding: chunked"] in
  let body := encode_chunked [bytes "test"] in
  no_lf status = true
  /\ forallb header_ok headers = true
  /\ no_lf body = false
  /\ (Z.of_nat (length (response_wire status headers body)) <=? len)%Z = true
  /\ exists s',
       read_reply [response_wire status headers body] fresh_reply = Some s'
       /\ chunked_transfer_encoding s'
          = chunked_transfer_encoding fresh_reply
            || existsb (fun h => Qt.contains h (bytes "Transfer-Encoding")
                                 && Qt.contains h (bytes "chunked")) headers.
Proof.
  intros status headers body.
  split; [reflexivity|]. split; [reflexivity|]. split; [reflexivity|].
  split; [reflexivity|].
  apply (chunked_detection_matches_exact_bytes
           status headers body fresh_reply); reflexivity.
Defined.

(** C6 as stated fails: a header line that holds the two words in lower
    case holds them when case is ignored, and the parse leaves the chunked
    flag down. *)
Lemma lower_case_transfer_encoding_is_not_detected :
  let h := bytes "transfer-encoding: chunked" in
  contains_ci h (bytes "Transfer-Encoding") = true
  /\ contains_ci h (bytes "chunked") = true
  /\ option_map chunked_transfer_encoding
       (read_reply
          [response_wire (bytes "HTTP/1.1 200 OK") [h]
                         (encode_chunked [bytes "test"])]
          fresh_reply)
     = Some false.
Proof. vm_compute. repeat split. Qed.

(* ===================================================================== *)
(** * A chunked body *)
(* ===================================================================== *)

Lemma no_lf_hexadecimal d :
  no_lf (bytes (HexadecimalString.NilEmpty.string_of_uint d)) = true.
Proof.
  induction d; cbn [HexadecimalString.NilEmpty.string_of_uint bytes
                    list_ascii_of_string];
    try reflexivity; rewrite no_lf_cons;
    fold (bytes (HexadecimalString.NilEmpty.string_of_uint d));
    rewrite IHd; reflexivity.
Qed.

Lemma no_lf_hex_size n : no_lf (hex_size n) = true.
Proof.
  unfold hex_size, HexadecimalString.NilZero.string_of_uint.
  destruct (N.to_hex_uint (N.of_nat n)); try reflexivity;
    apply no_lf_hexadecimal.
Qed.

Lemma trim_end_app_space a c :
  Qt.ascii_isspace c = true -> Qt.trim_end (a ++ [c]) = Qt.trim_end a.
Proof.
  intros Hc. induction a as [|x a IH].
  - cbn [app Qt.trim_end]. now rewrite Hc.
  - cbn [app Qt.trim_end]. rewrite IH. reflexivity.
Qed.

Lemma trim_start_app a b :
  Qt.trim_start (a ++ b)
  = match Qt.trim_start a with
    | [] => Qt.trim_start b
    | _ :: _ => Qt.trim_start a ++ b
    end.
Proof.
  induction a as [|x a IH]; [reflexivity|].
  cbn [app Qt.trim_start]. destruct (Qt.ascii_isspace x); [exact IH|].
  reflexivity.
Qed.

(** The CR that a line keeps from the wire is trimmed away. *)
Lemma trimmed_app_cr a : Qt.trimmed (a ++ [CR]) = Qt.trimmed a.
Proof.
  unfold Qt.trimmed. rewrite trim_start_app.
  destruct (Qt.trim_start a) as [|x r] eqn:E; [reflexivity|].
  apply trim_end_app_space. reflexivity.
Qed.

(** C1, as the code has it. The parser skips one line, the size of the
    first chunk, and takes the next line, trimmed, as the body. So for a
    chunked response of one chunk, received in one read, whose status line
    has no line feed, whose header lines have no line feed, are not empty
    and do not start with CR, one of them holding both the bytes of
    [Transfer-Encoding] and the bytes of [chunked] in that letter case, and
    whose payload has no line feed and neither starts nor ends with white
    space, the body is the payload and the reply is finished. *)
Theorem single_chunk_payload_is_the_body
  (status : QByteArray) (headers : list QByteArray) (payload : QByteArray)
  (s : LocalSocketReply) :
  let wire := response_wire status headers (encode_chunked [payload]) in
  no_lf status = true ->
  forallb header_ok headers = true ->
  existsb (fun h => Qt.contains h (bytes "Transfer-Encoding")
                    && Qt.contains h (bytes "chunked")) headers = true ->
  no_lf payload = true ->
  Qt.trimmed payload = payload ->
  (Z.of_nat (length wire) <=? len)%Z = true ->
  exists s',
    read_reply [wire] s = Some s'
    /\ content_data s' = payload
    /\ isFinished s' = true.
Proof.
  intros wire Hs Hh Hc Hp Ht _. subst wire.
  rewrite (read_reply_response status headers _ s Hs Hh).
  change (existsb mentions_chunked headers = true) in Hc. rewrite Hc.
  unfold encode_chunked, encode_chunk. cbn [map concat].
  rewrite app_nil_r, <- !app_assoc.
  rewrite split_crlf by apply no_lf_hex_size.
  rewrite split_crlf by exact Hp.
  unfold take_body. rewrite raise_chunked_flag. cbn [orb nth_error option_map].
  eexists. split; [reflexivity|].
  cbn [content_data isFinished emit setFinished set_content_data].
  rewrite trimmed_app_cr, Ht. split; reflexivity.
Qed.

Lemma single_chunk_payload_is_the_body_witness :
  let status := bytes "HTTP/1.1 200 OK" in
  let headers := [bytes "Transfer-Encoding: chunked"] in
  let payload := bytes "test" in
  let wire := response_wire status headers (encode_chunked [payload]) in
  no_lf status = true
  /\ forallb header_ok headers = true
  /\ existsb (fun h => Qt.contains h (bytes "Transfer-Encoding")
                       && Qt.contains h (bytes "chunked")) headers = true
  /\ no_lf payload = true
  /\ Qt.trimmed payload = payload
  /\ (Z.of_nat (length wire) <=? len)%Z = true
  /\ exists s',
       read_reply [wire] fresh_reply = Some s'
       /\ content_data s' = payload
       /\ isFinished s' = true.
Proof.
  intros status headers payload wire.
  split; [reflexivity|]. split; [reflexivity|]. split; [reflexivity|].
  split; [reflexivity|]. split; [reflexivity|]. split; [reflexivity|].
  apply (single_chunk_payload_is_the_body
           status headers payload fresh_reply); reflexivity.
Defined.

(** C1 as stated fails. A body of the two chunks ab and cd comes out as
    ab, and the one-chunk response that gives the body test in one
    notification gives another body, with a protocol failure, when its
    bytes come in two notifications. *)
Lemma chunks_are_not_reassembled :
  let status := bytes "HTTP/1.1 200 OK" in
  let headers := [bytes "Transfer-Encoding: chunked"] in
  let part1 := status ++ CRLF ++ bytes "Transfer-Encoding: chunked" ++ CRLF
               ++ CRLF ++ bytes "4" ++ CRLF in
  let part2 := bytes "test" ++ CRLF ++ bytes "0" ++ CRLF ++ CRLF in
  option_map content_data
    (read_reply
       [response_wire status headers (encode_chunked [bytes "ab"; bytes "cd"])]
       fresh_reply)
  = Some (bytes "ab")
  /\ bytes "ab" <> concat [bytes "ab"; bytes "cd"]
  /\ part1 ++ part2 = response_wire status headers (encode_chunked [bytes "test"])
  /\ option_map content_data (read_reply [part1 ++ part2] fresh_reply)
     = Some (bytes "test")
  /\ match read_reply [part1] fresh_reply with
     | Some s1 =>
         option_map (fun s2 => (content_data s2, error s2))
                    (read_reply [part2] s1)
     | None => None
     end
     = Some (bytes "Transfer-Encoding: chunked", ProtocolFailure).
Proof.
  vm_compute. repeat split. discriminate.
Qed.

(* ===================================================================== *)
(** * A malformed status line, and the reply to a missing resource *)
(* ===================================================================== *)



Lemma read_reply_unfold reads s :
  let buf := fst (drain reads (reply_data s, 0%Z)) in
  read_reply reads s
  = option_map
      (fun s' => emit sig_finished (setFinished true s'))
      (scan_lines (tl (Qt.split LF buf))
                  (parse_status (hd [] (Qt.split LF buf))
                                (set_reply_data buf s))).
Proof.
  intros buf. subst buf. unfold read_reply, parse_reply.
  destruct (drain reads (reply_data s, 0%Z)) as [buf data_ptr].
  cbn [fst reply_data set_reply_data].
  rewrite (split_hd_tl LF buf) at 1.
  destruct (scan_lines _ _); reflexivity.
Qed.




(** C9 fails on the code. For the reply to a missing resource the category
    is the one of 404, but the message keeps the CR of the line (the lines
    are cut at the line feed and the pattern takes the rest of the line),
    and after the blank line the body is what the buffer holds there: the
    NUL bytes it was filled with, all 65510 of them. Without the blank line
    the body is empty and the message is the same. *)
Theorem not_found_reply_message_and_body :
  let status := bytes "HTTP/1.1 404 Not Found" in
  let observe s :=
    (error s, errorString s, Z.of_nat (length (content_data s)),
     forallb (Ascii.eqb NUL) (content_data s)) in
  option_map observe (read_reply [status ++ CRLF ++ CRLF] fresh_reply)
  = Some (ContentNotFoundError, bytes "Not Found" ++ [CR], 65510%Z, true)
  /\ option_map observe (read_reply [status ++ CRLF] fresh_reply)
     = Some (ContentNotFoundError, bytes "Not Found" ++ [CR], 0%Z, true)
  /\ bytes "Not Found" ++ [CR] <> bytes "Not Found".
Proof. vm_compute. repeat split. discriminate. Qed.

(* ===================================================================== *)
(** * Further properties: the sequential reader *)
(* ===================================================================== *)

Lemma firstn_split_min (m t : Z) (l : list ascii) :
  (0 <= m)%Z -> (0 <= t)%Z ->
  let number := Z.min m (Z.of_nat (length l)) in
  firstn (Z.to_nat (m + t)) l
  = firstn (Z.to_nat number) l
    ++ firstn (Z.to_nat t) (skipn (Z.to_nat number) l).
Proof.
  intros Hm Ht number. subst number.
  destruct (Z.le_ge_cases m (Z.of_nat (length l))) as [Hle|Hge].
  - rewrite Z.min_l by exact Hle.
    rewrite Z2Nat.inj_add by assumption.
    rewrite <- (firstn_skipn (Z.to_nat m) l) at 1.
    assert (Hlen : length (firstn (Z.to_nat m) l) = Z.to_nat m)
      by (apply firstn_length_le; lia).
    rewrite <- Hlen at 1. rewrite firstn_app_2. reflexivity.
  - rewrite Z.min_r by lia. rewrite Nat2Z.id.
    rewrite firstn_all, skipn_all, firstn_nil, app_nil_r.
    apply firstn_all2. lia.
Qed.

(** X1. Successive reads deliver the body in order. From a cursor inside
    the body, reads of any sizes that are not negative all succeed; put end
    to end, what they deliver is the part of the body from the cursor on,
    cut at the sum of the sizes, with no byte left out and none twice; the
    cursor ends at the start plus that sum, or at the end of the body, and
    the body is untouched. *)
Theorem readData_delivers_body_in_order (sizes : list Z) :
  forall s : LocalSocketReply,
  Forall (fun maxSize => (0 <= maxSize)%Z) sizes ->
  (0 <= offset s <= Z.of_nat (length (content_data s)))%Z ->
  exists outs s',
    readData_seq sizes s = Some (outs, s')
    /\ delivered outs
       = firstn (Z.to_nat (total sizes))
                (skipn (Z.to_nat (offset s)) (content_data s))
    /\ offset s'
       = Z.min (offset s + total sizes) (Z.of_nat (length (content_data s)))
    /\ content_data s' = content_data s.
Proof.
  induction sizes as [|maxSize sizes IH]; intros s Hsizes Hoff.
  - exists [], s. cbn [readData_seq total fold_right delivered map concat].
    rewrite Z.add_0_r, Z.min_l by lia. repeat split; reflexivity.
  - inversion Hsizes as [|? ? Hm Hrest]; subst.
    assert (Ht : (0 <= total sizes)%Z).
    { clear -Hrest. induction Hrest; cbn [total fold_right]; [lia|].
      fold (total l). lia. }
    cbn [readData_seq]. unfold readData.
    set (size := Z.of_nat (length (content_data s))) in *.
    destruct (Z.ltb_spec (offset s) size) as [Hlt|Hge].
    + set (number := Z.min maxSize (size - offset s)).
      assert (Hn : (0 <= number <= size - offset s)%Z) by (subst number; lia).
      destruct (Z.ltb_spec number 0) as [Hneg|_]; [lia|].
      destruct (IH (set_offset (offset s + number) s) Hrest)
        as (outs & s' & Hseq & Hdel & Hoff' & Hbody).
      { cbn [offset content_data set_offset]. fold size. lia. }
      cbn [offset content_data set_offset] in Hseq, Hdel, Hoff', Hbody.
      rewrite Hseq. eexists. eexists. split; [reflexivity|].
      cbn [delivered map concat snd total fold_right].
      fold (delivered outs). fold (total sizes). rewrite Hdel.
      repeat split.
      * set (rest := skipn (Z.to_nat (offset s)) (content_data s)).
        assert (Hlen : Z.of_nat (length rest) = (size - offset s)%Z).
        { subst rest size. rewrite length_skipn. lia. }
        pose proof (firstn_split_min maxSize (total sizes) rest Hm Ht) as E.
        cbv zeta in E. rewrite Hlen in E. fold number in E. rewrite E.
        f_equal. f_equal. subst rest. rewrite skipn_skipn. f_equal. lia.
      * rewrite Hoff'. fold size. subst number. lia.
      * exact Hbody.
    + destruct (IH s Hrest Hoff) as (outs & s' & Hseq & Hdel & Hoff' & Hbody).
      rewrite Hseq. eexists. eexists. split; [reflexivity|].
      cbn [delivered map concat snd total fold_right app].
      fold (delivered outs). fold (total sizes). fold size in Hoff'.
      assert (Hnil : skipn (Z.to_nat (offset s)) (content_data s) = []).
      { apply skipn_all2. subst size. lia. }
      repeat split.
      * rewrite Hdel, Hnil, !firstn_nil. reflexivity.
      * rewrite Hoff'. lia.
      * exact Hbody.
Qed.

Lemma readData_delivers_body_in_order_witness :
  let s := set_content_data (bytes "hello world") construct_default in
  Forall (fun maxSize => (0 <= maxSize)%Z) [2%Z; 0%Z; 4%Z; 100%Z; 1%Z]
  /\ (0 <= offset s <= Z.of_nat (length (content_data s)))%Z
  /\ exists outs s',
       readData_seq [2%Z; 0%Z; 4%Z; 100%Z; 1%Z] s = Some (outs, s')
       /\ delivered outs
          = firstn (Z.to_nat (total [2%Z; 0%Z; 4%Z; 100%Z; 1%Z]))
                   (skipn (Z.to_nat (offset s)) (content_data s))
       /\ offset s'
          = Z.min (offset s + total [2%Z; 0%Z; 4%Z; 100%Z; 1%Z])
                  (Z.of_nat (length (content_data s)))
       /\ content_data s' = content_data s.
Proof.
  intros s.
  assert (Hs : Forall (fun maxSize => (0 <= maxSize)%Z)
                      [2%Z; 0%Z; 4%Z; 100%Z; 1%Z])
    by (repeat constructor; lia).
  assert (Ho : (0 <= offset s <= Z.of_nat (length (content_data s)))%Z)
    by (cbn; lia).
  split; [exact Hs|]. split; [exact Ho|].
  exact (readData_delivers_body_in_order [2%Z; 0%Z; 4%Z; 100%Z; 1%Z] s Hs Ho).
Defined.

(* ===================================================================== *)
(** * Further properties: the request read back *)
(* ===================================================================== *)

Lemma toInt_digits_step c v acc r :
  Qt.is_digit c = true ->
  (Z.of_nat (nat_of_ascii c) - 48)%Z = v ->
  Qt.toInt_digits acc (c :: r) = Qt.toInt_digits (10 * acc + v) r.
Proof. intros Hc <-. cbn [Qt.toInt_digits]. now rewrite Hc. Qed.

Lemma toInt_digits_decimal d :
  forall acc : positive,
  Qt.toInt_digits (Z.pos acc) (bytes (DecimalString.NilEmpty.string_of_uint d))
  = Some (Z.pos (Pos.of_uint_acc d acc)).
Proof.
  induction d; intros acc;
    cbn [DecimalString.NilEmpty.string_of_uint bytes list_ascii_of_string
         Pos.of_uint_acc];
    try reflexivity;
    fold (bytes (DecimalString.NilEmpty.string_of_uint d)).
  - rewrite (toInt_digits_step "0" 0) by reflexivity.
    replace (10 * Z.pos acc + 0)%Z with (Z.pos (10 * acc)) by lia. apply IHd.
  - rewrite (toInt_digits_step "1" 1) by reflexivity.
    replace (10 * Z.pos acc + 1)%Z with (Z.pos (1 + 10 * acc)) by lia.
    apply IHd.
  - rewrite (toInt_digits_step "2" 2) by reflexivity.
    replace (10 * Z.pos acc + 2)%Z with (Z.pos (2 + 10 * acc)) by lia.
    apply IHd.
  - rewrite (toInt_digits_step "3" 3) by reflexivity.
    replace (10 * Z.pos acc + 3)%Z with (Z.pos (3 + 10 * acc)) by lia.
    apply IHd.
  - rewrite (toInt_digits_step "4" 4) by reflexivity.
    replace (10 * Z.pos acc + 4)%Z with (Z.pos (4 + 10 * acc)) by lia.
    apply IHd.
  - rewrite (toInt_digits_step "5" 5) by reflexivity.
    replace (10 * Z.pos acc + 5)%Z with (Z.pos (5 + 10 * acc)) by lia.
    apply IHd.
  - rewrite (toInt_digits_step "6" 6) by reflexivity.
    replace (10 * Z.pos acc + 6)%Z with (Z.pos (6 + 10 * acc)) by lia.
    apply IHd.
  - rewrite (toInt_digits_step "7" 7) by reflexivity.
    replace (10 * Z.pos acc + 7)%Z with (Z.pos (7 + 10 * acc)) by lia.
    apply IHd.
  - rewrite (toInt_digits_step "8" 8) by reflexivity.
    replace (10 * Z.pos acc + 8)%Z with (Z.pos (8 + 10 * acc)) by lia.
    apply IHd.
  - rewrite (toInt_digits_step "9" 9) by reflexivity.
    replace (10 * Z.pos acc + 9)%Z with (Z.pos (9 + 10 * acc)) by lia.
    apply IHd.
Qed.

Lemma toInt_digits_decimal_0 d :
  Qt.toInt_digits 0 (bytes (DecimalString.NilEmpty.string_of_uint d))
  = Some (Z.of_N (Pos.of_uint d)).
Proof.
  induction d;
    cbn [DecimalString.NilEmpty.string_of_uint bytes list_ascii_of_string
         Pos.of_uint];
    try reflexivity;
    fold (bytes (DecimalString.NilEmpty.string_of_uint d)).
  - rewrite (toInt_digits_step "0" 0) by reflexivity. exact IHd.
  - rewrite (toInt_digits_step "1" 1) by reflexivity.
    apply (toInt_digits_decimal d 1).
  - rewrite (toInt_digits_step "2" 2) by reflexivity.
    apply (toInt_digits_decimal d 2).
  - rewrite (toInt_digits_step "3" 3) by reflexivity.
    apply (toInt_digits_decimal d 3).
  - rewrite (toInt_digits_step "4" 4) by reflexivity.
    apply (toInt_digits_decimal d 4).
  - rewrite (toInt_digits_step "5" 5) by reflexivity.
    apply (toInt_digits_decimal d 5).
  - rewrite (toInt_digits_step "6" 6) by reflexivity.
    apply (toInt_digits_decimal d 6).
  - rewrite (toInt_digits_step "7" 7) by reflexivity.
    apply (toInt_digits_decimal d 7).
  - rewrite (toInt_digits_step "8" 8) by reflexivity.
    apply (toInt_digits_decimal d 8).
  - rewrite (toInt_digits_step "9" 9) by reflexivity.
    apply (toInt_digits_decimal d 9).
Qed.

(** The decimal digits of a number that is not negative read back as the
    number. *)
Lemma toInt_number n : (0 <= n)%Z -> Qt.toInt (Qt.number n) = (n, true).
Proof.
  intros Hn. destruct n as [|p|p]; [reflexivity| |lia].
  unfold Qt.number. cbn [Z.to_int DecimalString.NilZero.string_of_int].
  pose proof (DecimalPos.Unsigned.of_to p) as Hp.
  pose proof (toInt_digits_decimal_0 (Pos.to_uint p)) as Hd.
  rewrite Hp in Hd. cbn [Z.of_N] in Hd.
  unfold DecimalString.NilZero.string_of_uint.
  destruct (Pos.to_uint p) eqn:E; [discriminate Hp| | | | | | | | | |];
    unfold Qt.toInt;
    cbn [DecimalString.NilEmpty.string_of_uint bytes list_ascii_of_string]
      in Hd |- *;
    rewrite Hd; reflexivity.
Qed.

(** X2. The [Content-Length] value of a POST or PUT request with a body is
    a decimal number that reads back, whole, as the number of bytes of the
    body. *)
Theorem content_length_reads_back_as_body_length
  (version_string op : QByteArray) (target : QString) (body : QByteArray) :
  no_lf version_string = true -> no_lf op = true -> no_lf target = true ->
  op = bytes "POST" \/ op = bytes "PUT" ->
  exists value,
    header_value (bytes "Content-Length")
      (header_lines
         (http_data version_string (mkRequest op target) (Some body)))
    = Some value
    /\ Qt.toInt value = (Z.of_nat (length body), true).
Proof.
  intros Hv Hop Ht Hpp.
  destruct (request_read_back_body version_string op target body
              Hv Hop Ht Hpp) as [Hlines _].
  exists (Qt.number (Z.of_nat (length body))). split.
  - rewrite Hlines. reflexivity.
  - apply toInt_number. lia.
Qed.

Lemma content_length_reads_back_as_body_length_witness :
  no_lf (bytes "1.14.0") = true
  /\ no_lf (bytes "PUT") = true
  /\ no_lf (bytes "/1.0/instances/foo/state") = true
  /\ (bytes "PUT" = bytes "POST" \/ bytes "PUT" = bytes "PUT")
  /\ exists value,
       header_value (bytes "Content-Length")
         (header_lines
            (http_data (bytes "1.14.0")
               (mkRequest (bytes "PUT") (bytes "/1.0/instances/foo/state"))
               (Some (bytes "action=stop&timeout=-1"))))
       = Some value
       /\ Qt.toInt value
          = (Z.of_nat (length (bytes "action=stop&timeout=-1")), true).
Proof.
  split; [reflexivity|]. split; [reflexivity|]. split; [reflexivity|].
  split; [right; reflexivity|].
  exact (content_length_reads_back_as_body_length
           (bytes "1.14.0") (bytes "PUT") (bytes "/1.0/instances/foo/state")
           (bytes "action=stop&timeout=-1") eq_refl eq_refl eq_refl
           (or_intror eq_refl)).
Defined.

Lemma take_until_app c a r :
  existsb (Ascii.eqb c) a = false ->
  take_until c (a ++ c :: r) = Some (a, r).
Proof.
  induction a as [|x a IH]; intros H.
  - cbn [app take_until]. now rewrite Ascii.eqb_refl.
  - cbn [existsb] in H. apply orb_false_iff in H as [Hx Ha].
    cbn [app take_until]. rewrite Ascii.eqb_sym, Hx, (IH Ha). reflexivity.
Qed.

Lemma strip_suffix_app suffix a : strip_suffix suffix (a ++ suffix) = Some a.
Proof.
  unfold strip_suffix. rewrite rev_app_distr, lit_app. cbn [option_map].
  now rewrite rev_involutive.
Qed.

(** X3. The request line carries the method and the target back. For any
    verb without space or line feed and any target without line feed,
    whatever the body, the first line of the request is the verb, a space,
    the target and the protocol version, and a reader that cuts it at the
    first space and takes the version off the end gets the verb and the
    target that went in. *)
Theorem request_line_round_trip
  (version_string op : QByteArray) (target : QString)
  (outgoingData : option QByteArray) :
  no_lf version_string = true -> no_lf op = true -> no_lf target = true ->
  existsb (Ascii.eqb SP) op = false ->
  let line :=
    hd [] (Qt.split LF
             (http_data version_string (mkRequest op target) outgoingData)) in
  line = op ++ [SP] ++ target ++ bytes " HTTP/1.1" ++ [CR]
  /\ parse_request_line line = Some (op, target).
Proof.
  intros Hv Hop Ht Hsp line. subst line.
  rewrite (http_data_lines version_string Hv op target Hop Ht). cbn [hd].
  split; [reflexivity|].
  unfold parse_request_line.
  change (op ++ [SP] ++ target ++ bytes " HTTP/1.1" ++ [CR])
    with (op ++ SP :: (target ++ (bytes " HTTP/1.1" ++ [CR]))).
  rewrite (take_until_app SP op _ Hsp), strip_suffix_app. reflexivity.
Qed.

Lemma request_line_round_trip_witness :
  no_lf (bytes "1.14.0") = true
  /\ no_lf (bytes "DELETE") = true
  /\ no_lf (bytes "/1.0/instances/foo?force=1") = true
  /\ existsb (Ascii.eqb SP) (bytes "DELETE") = false
  /\ parse_request_line
       (hd [] (Qt.split LF
                 (http_data (bytes "1.14.0")
                    (mkRequest (bytes "DELETE")
                               (bytes "/1.0/instances/foo?force=1"))
                    None)))
     = Some (bytes "DELETE", bytes "/1.0/instances/foo?force=1").
Proof.
  split; [reflexivity|]. split; [reflexivity|]. split; [reflexivity|].
  split; [reflexivity|].
  exact (proj2 (request_line_round_trip
                  (bytes "1.14.0") (bytes "DELETE")
                  (bytes "/1.0/instances/foo?force=1") None
                  eq_refl eq_refl eq_refl eq_refl)).
Defined.

(* ===================================================================== *)
(** * Further properties: the reply parser *)
(* ===================================================================== *)

Lemma split_no_lf a : no_lf a = true -> Qt.split LF a = [a].
Proof.
  intros Ha. rewrite <- (app_nil_r a) at 1.
  rewrite (split_app_no_lf _ _ Ha). cbn [Qt.split hd tl].
  now rewrite app_nil_r.
Qed.

Lemma no_nul_app a b : no_nul (a ++ b) = no_nul a && no_nul b.
Proof.
  unfold no_nul. rewrite existsb_app, negb_orb. reflexivity.
Qed.

Lemma is_digit_not_lf d : Qt.is_digit d = true -> Ascii.eqb LF d = false.
Proof.
  intros Hd. destruct (Ascii.eqb_spec LF d) as [<-|]; [discriminate|reflexivity].
Qed.

Lemma is_digit_value d :
  Qt.is_digit d = true -> (0 <= Z.of_nat (nat_of_ascii d) - 48 <= 9)%Z.
Proof.
  unfold Qt.is_digit. intros H. apply andb_true_iff in H as [H1 H2].
  apply Nat.leb_le in H1, H2. lia.
Qed.

Lemma toInt_three_digits d1 d2 d3 :
  Qt.is_digit d1 = true -> Qt.is_digit d2 = true -> Qt.is_digit d3 = true ->
  Qt.toInt [d1; d2; d3]
  = ((100 * (Z.of_nat (nat_of_ascii d1) - 48)
      + 10 * (Z.of_nat (nat_of_ascii d2) - 48)
      + (Z.of_nat (nat_of_ascii d3) - 48))%Z, true).
Proof.
  intros H1 H2 H3. unfold Qt.toInt.
  rewrite (toInt_digits_step d1 _ 0 [d2; d3] H1 eq_refl).
  rewrite (toInt_digits_step d2 _ _ [d3] H2 eq_refl).
  rewrite (toInt_digits_step d3 _ _ [] H3 eq_refl).
  cbn [Qt.toInt_digits]. f_equal. lia.
Qed.

Lemma no_lf_any_status_line v1 v2 d1 d2 d3 reason :
  Qt.is_digit v1 = true -> Qt.is_digit v2 = true ->
  Qt.is_digit d1 = true -> Qt.is_digit d2 = true -> Qt.is_digit d3 = true ->
  no_lf reason = true ->
  no_lf (any_status_line v1 v2 d1 d2 d3 reason) = true.
Proof.
  intros Hv1 Hv2 H1 H2 H3 Hr. unfold any_status_line.
  cbn [bytes list_ascii_of_string app].
  rewrite !no_lf_cons, Hr.
  rewrite (is_digit_not_lf _ Hv1), (is_digit_not_lf _ Hv2),
          (is_digit_not_lf _ H1), (is_digit_not_lf _ H2),
          (is_digit_not_lf _ H3).
  reflexivity.
Qed.

(** The pattern on a status line with any digits. *)
Lemma regex_on_any_status_line v1 v2 d1 d2 d3 message :
  Qt.is_digit v1 = true -> Qt.is_digit v2 = true ->
  Qt.is_digit d1 = true -> Qt.is_digit d2 = true -> Qt.is_digit d3 = true ->
  no_lf message = true -> no_nul message = true ->
  Regex.http_status_regex
    (Qt.fromLatin1 (any_status_line v1 v2 d1 d2 d3 message))
  = Some (Regex.mkMatch [d1; d2; d3] message).
Proof.
  intros Hv1 Hv2 H1 H2 H3 Hlf Hnul. unfold any_status_line.
  cbn [bytes list_ascii_of_string app Qt.fromLatin1].
  rewrite (is_digit_not_nul _ Hv1), (is_digit_not_nul _ Hv2),
          (is_digit_not_nul _ H1), (is_digit_not_nul _ H2),
          (is_digit_not_nul _ H3).
  cbn [Ascii.eqb Bool.eqb NUL SP].
  rewrite (fromLatin1_no_nul _ Hnul).
  change (Regex.http_status_regex
            (bytes "HTTP/" ++ v1 :: bytes "." ++ v2 :: [SP]
             ++ d1 :: d2 :: d3 :: [SP] ++ message)
          = Some (Regex.mkMatch [d1; d2; d3] message)).
  unfold Regex.http_status_regex.
  rewrite lit_app, (digit_cons v1 _ Hv1). cbn [snd fst].
  rewrite lit_app, (digit_cons v2 _ Hv2). cbn [snd fst].
  rewrite lit_app, (digit_cons d1 _ H1). cbn [snd fst].
  rewrite (digit_cons d2 _ H2). cbn [snd fst].
  rewrite (digit_cons d3 _ H3). cbn [snd fst].
  rewrite lit_app, (dot_star_eol_no_lf _ Hlf). reflexivity.
Qed.

Lemma statusCodeFromHttp_not_NoError code : statusCodeFromHttp code <> NoError.
Proof.
  unfold statusCodeFromHttp.
  repeat match goal with
  | |- context [if ?c then _ else _] => destruct c
  end; discriminate.
Qed.

(** A response that no line marks as chunked, on a reply whose flag is
    down: the parse is defined and takes the first line after the blank
    line. *)
Lemma read_reply_plain_response status headers body s :
  no_lf status = true -> forallb header_ok headers = true ->
  existsb mentions_chunked headers = false ->
  chunked_transfer_encoding s = false ->
  let wire := response_wire status headers body in
  let tail := skipn (length wire) (reply_data s) in
  let s1 := parse_status (status ++ [CR]) (set_reply_data (wire ++ tail) s) in
  read_reply [wire] s
  = Some (emit sig_finished
            (setFinished true
               (set_content_data
                  (Qt.trimmed (hd [] (Qt.split LF (body ++ tail)))) s1))).
Proof.
  intros Hs Hh Hm Hflag. cbv zeta.
  pose proof (read_reply_response status headers body s Hs Hh) as E.
  cbv zeta in E. rewrite E. clear E.
  rewrite Hm. cbn [raise_chunked]. unfold take_body.
  rewrite parse_status_chunked. cbn [chunked_transfer_encoding set_reply_data].
  rewrite Hflag, (split_hd_tl LF (body ++ _)). reflexivity.
Qed.

(** X4. Every status line of the right shape is classified by its three
    digits, whatever the version digits, codes outside 100 to 599
    included. For a response with such a status line, lines ended by CR LF
    and no chunk marking, the reply finishes; a code of 400 or more stores
    and signals the category of [statusCodeFromHttp] (600 to 999 are
    unknown server errors) with, as message, the reason phrase followed by
    the CR of the line; a code below 400 (000 to 099 included) leaves
    error and message as they were and signals the end only. *)
Theorem status_line_of_any_digits_is_classified
  (v1 v2 d1 d2 d3 : ascii) (reason : QString) (headers : list QByteArray)
  (body : QByteArray) (s : LocalSocketReply) :
  Qt.is_digit v1 = true -> Qt.is_digit v2 = true ->
  Qt.is_digit d1 = true -> Qt.is_digit d2 = true -> Qt.is_digit d3 = true ->
  no_lf reason = true -> no_nul reason = true ->
  forallb header_ok headers = true ->
  existsb mentions_chunked headers = false ->
  chunked_transfer_encoding s = false ->
  let code := fst (Qt.toInt [d1; d2; d3]) in
  exists s',
    read_reply
      [response_wire (any_status_line v1 v2 d1 d2 d3 reason) headers body] s
    = Some s'
    /\ isFinished s' = true
    /\ (0 <= code <= 999)%Z
    /\ ((400 <= code)%Z ->
        error s' = statusCodeFromHttp code
        /\ errorString s' = reason ++ [CR]
        /\ emitted s'
           = emitted s ++ [sig_error (statusCodeFromHttp code); sig_finished])
    /\ ((600 <= code)%Z -> error s' = UnknownServerError)
    /\ ((code < 400)%Z ->
        error s' = error s
        /\ errorString s' = errorString s
        /\ emitted s' = emitted s ++ [sig_finished]).
Proof.
  intros Hv1 Hv2 H1 H2 H3 Hlf Hnul Hh Hm Hflag code.
  assert (Hs : no_lf (any_status_line v1 v2 d1 d2 d3 reason) = true)
    by (apply no_lf_any_status_line; assumption).
  pose proof (read_reply_plain_response _ headers body s Hs Hh Hm Hflag) as E.
  cbv zeta in E. rewrite E. clear E.
  eexists. split; [reflexivity|]. split; [reflexivity|].
  assert (Hcode : Qt.toInt [d1; d2; d3] = (code, true)).
  { subst code. rewrite (toInt_three_digits d1 d2 d3 H1 H2 H3). reflexivity. }
  assert (Hrange : (0 <= code <= 999)%Z).
  { subst code. rewrite (toInt_three_digits d1 d2 d3 H1 H2 H3). cbn [fst].
    pose proof (is_digit_value d1 H1). pose proof (is_digit_value d2 H2).
    pose proof (is_digit_value d3 H3). lia. }
  split; [exact Hrange|].
  assert (Hline : any_status_line v1 v2 d1 d2 d3 reason ++ [CR]
                  = any_status_line v1 v2 d1 d2 d3 (reason ++ [CR]))
    by (unfold any_status_line; rewrite <- !app_assoc; reflexivity).
  rewrite Hline. unfold parse_status.
  rewrite (regex_on_any_status_line v1 v2 d1 d2 d3 (reason ++ [CR])
             Hv1 Hv2 H1 H2 H3)
    by (rewrite ?no_lf_app, ?no_nul_app, ?Hlf, ?Hnul; reflexivity).
  cbn [Regex.captured_status Regex.captured_message]. rewrite Hcode.
  destruct (Z.geb_spec code 400) as [Hge|Hlt].
  - split; [|split].
    + intros _. cbn. rewrite <- app_assoc. repeat split.
    + intros H600. cbn. unfold statusCodeFromHttp.
      repeat match goal with
      | |- context [(?a =? ?b)%Z] => destruct (Z.eqb_spec a b); [lia|]
      end.
      destruct (Z.gtb_spec code 500); [reflexivity | lia].
    + intros Hlt. lia.
  - split; [|split].
    + intros Hge. lia.
    + intros H600. lia.
    + intros _. cbn. repeat split.
Qed.

Lemma status_line_of_any_digits_is_classified_witness :
  let headers := [bytes "Content-Type: application/json"] in
  Qt.is_digit "1" = true /\ Qt.is_digit "0" = true
  /\ Qt.is_digit "7" = true /\ Qt.is_digit "0" = true
  /\ Qt.is_digit "3" = true
  /\ no_lf (bytes "Odd") = true /\ no_nul (bytes "Odd") = true
  /\ forallb header_ok headers = true
  /\ existsb mentions_chunked headers = false
  /\ chunked_transfer_encoding fresh_reply = false
  /\ exists s',
       read_reply
         [response_wire (any_status_line "1" "0" "7" "0" "3" (bytes "Odd"))
                        headers (bytes "{}" ++ [LF])]
         fresh_reply
       = Some s'
       /\ error s' = UnknownServerError
       /\ errorString s' = bytes "Odd" ++ [CR].
Proof.
  intros headers. repeat (split; [reflexivity|]).
  destruct (status_line_of_any_digits_is_classified
              "1" "0" "7" "0" "3" (bytes "Odd") headers (bytes "{}" ++ [LF])
              fresh_reply eq_refl eq_refl eq_refl eq_refl eq_refl eq_refl
              eq_refl eq_refl eq_refl eq_refl)
    as (s' & Hr & _ & _ & H400 & H600 & _).
  exists s'. split; [exact Hr|]. split.
  - apply H600. vm_compute. discriminate.
  - apply H400. vm_compute. discriminate.
Defined.

(** X5. Without chunk marking the body is the first line after the blank
    line, trimmed. For a response with any first line (matching the
    pattern or not), header lines that do not mark it as chunked, and a
    body that goes on after its first line feed, the parse is defined and
    the body is the bytes before that line feed with white space taken off
    both ends; everything after the first line feed of the body is left
    out. *)
Theorem plain_body_is_first_line_trimmed
  (status : QByteArray) (headers : list QByteArray)
  (body_line rest : QByteArray) (s : LocalSocketReply) :
  no_lf status = true ->
  forallb header_ok headers = true ->
  existsb mentions_chunked headers = false ->
  chunked_transfer_encoding s = false ->
  no_lf body_line = true ->
  exists s',
    read_reply [response_wire status headers (body_line ++ LF :: rest)] s
    = Some s'
    /\ content_data s' = Qt.trimmed body_line
    /\ chunked_transfer_encoding s' = false
    /\ isFinished s' = true.
Proof.
  intros Hs Hh Hm Hflag Hb.
  pose proof (read_reply_plain_response status headers
                (body_line ++ LF :: rest) s Hs Hh Hm Hflag) as E.
  cbv zeta in E. rewrite E. clear E.
  eexists. split; [reflexivity|].
  cbn [content_data chunked_transfer_encoding isFinished emit setFinished
       set_content_data].
  rewrite <- app_assoc. cbn [app]. rewrite (split_line body_line _ Hb).
  cbn [hd]. rewrite parse_status_chunked.
  repeat split. exact Hflag.
Qed.

Lemma plain_body_is_first_line_trimmed_witness :
  let status := bytes "HTTP/1.1 200 OK" in
  let headers := [bytes "Content-Type: application/json";
                  bytes "Content-Length: 27"] in
  let body_line := bytes "  [1, 2, 3]  " in
  no_lf status = true
  /\ forallb header_ok headers = true
  /\ existsb mentions_chunked headers = false
  /\ chunked_transfer_encoding fresh_reply = false
  /\ no_lf body_line = true
  /\ exists s',
       read_reply
         [response_wire status headers (body_line ++ LF :: bytes "more")]
         fresh_reply
       = Some s'
       /\ content_data s' = Qt.trimmed body_line
       /\ chunked_transfer_encoding s' = false
       /\ isFinished s' = true.
Proof.
  intros status headers body_line. repeat (split; [reflexivity|]).
  exact (plain_body_is_first_line_trimmed
           status headers body_line (bytes "more") fresh_reply
           eq_refl eq_refl eq_refl eq_refl eq_refl).
Defined.

(** X6. A chunked response whose chunk has not arrived makes the parse
    undefined. When the header lines mark the response as chunked (or the
    flag is already up) and neither the bytes after the blank line nor the
    rest of the buffer hold a line feed, there is only one line after the
    separator; the iterator is moved two lines on, past the end of the
    list, and dereferenced. *)
Theorem chunked_reply_without_chunk_line_is_undefined
  (status : QByteArray) (headers : list QByteArray) (body : QByteArray)
  (s : LocalSocketReply) :
  let wire := response_wire status headers body in
  no_lf status = true ->
  forallb header_ok headers = true ->
  existsb mentions_chunked headers || chunked_transfer_encoding s = true ->
  no_lf body = true ->
  no_lf (skipn (length wire) (reply_data s)) = true ->
  read_reply [wire] s = None.
Proof.
  intros wire Hs Hh Hm Hb Htail. subst wire.
  pose proof (read_reply_response status headers body s Hs Hh) as E.
  cbv zeta in E. rewrite E. clear E.
  rewrite split_app_no_lf by exact Hb.
  rewrite (split_no_lf _ Htail). cbn [hd tl].
  unfold take_body. rewrite raise_chunked_flag, parse_status_chunked.
  cbn [chunked_transfer_encoding set_reply_data]. rewrite Hm. reflexivity.
Qed.

Lemma chunked_reply_without_chunk_line_is_undefined_witness :
  let status := bytes "HTTP/1.1 200 OK" in
  let headers := [bytes "Content-Type: application/json";
                  bytes "Transfer-Encoding: chunked"] in
  let wire := response_wire status headers [] in
  no_lf status = true
  /\ forallb header_ok headers = true
  /\ existsb mentions_chunked headers
     || chunked_transfer_encoding fresh_reply = true
  /\ no_lf [] = true
  /\ no_lf (skipn (length wire) (reply_data fresh_reply)) = true
  /\ read_reply [wire] fresh_reply = None.
Proof.
  intros status headers wire.
  assert (Htail : no_lf (skipn (length wire) (reply_data fresh_reply)) = true)
    by (vm_compute; reflexivity).
  split; [reflexivity|]. split; [reflexivity|]. split; [reflexivity|].
  split; [reflexivity|]. split; [exact Htail|].
  exact (chunked_reply_without_chunk_line_is_undefined
           status headers [] fresh_reply eq_refl eq_refl eq_refl eq_refl
           Htail).
Defined.

(* ===================================================================== *)
(** * Further properties: what a readiness notification changes *)
(* ===================================================================== *)

(** [parse_status] leaves the reply alone, or stores and signals one error
    that is not [NoError]. *)
Lemma parse_status_effect status s :
  parse_status status s = s
  \/ exists code message,
       code <> NoError
       /\ parse_status status s
          = emit (sig_error code) (setError code message s).
Proof.
  unfold parse_status.
  destruct (Regex.http_status_regex (Qt.fromLatin1 status)) as [m|].
  - destruct (Qt.toInt (Regex.captured_status m)) as [statusCode ok].
    destruct (statusCode >=? 400)%Z; [|left; reflexivity].
    right. exists (statusCodeFromHttp statusCode), (Regex.captured_message m).
    split; [apply statusCodeFromHttp_not_NoError | reflexivity].
  - right. exists ProtocolFailure, (bytes "Malformed HTTP response from server").
    split; [discriminate | reflexivity].
Qed.

(** The loop changes the body and the chunked flag only, and never lowers
    the flag. *)
Lemma scan_lines_changes lines :
  forall s s', scan_lines lines s = Some s' ->
  s' = mkReply (local_socket s) (reply_data s) (content_data s') (offset s)
               (chunked_transfer_encoding s') (error s) (errorString s)
               (isFinished s) (isOpen s) (emitted s)
  /\ (chunked_transfer_encoding s = true ->
      chunked_transfer_encoding s' = true).
Proof.
  induction lines as [|line rest IH]; intros s s' H; cbn [scan_lines] in H.
  - inversion H; subst. destruct s'; split; [reflexivity | auto].
  - change (if mentions_chunked line then set_chunked true s else s)
      with (raise_chunked (mentions_chunked line) s) in H.
    assert (Hr : forall b,
               raise_chunked b s
               = mkReply (local_socket s) (reply_data s) (content_data s)
                   (offset s) (b || chunked_transfer_encoding s) (error s)
                   (errorString s) (isFinished s) (isOpen s) (emitted s))
      by (intros []; destruct s; reflexivity).
    destruct (is_separator line).
    + unfold take_body in H.
      destruct (nth_error rest _); inversion H; subst; clear H.
      rewrite Hr. cbn. split; [reflexivity|].
      intros ->. apply orb_true_r.
    + destruct (IH _ _ H) as [E Hmono]. rewrite Hr in E, Hmono.
      cbn in E, Hmono. split; [exact E|].
      intros Hc. apply Hmono. rewrite Hc. apply orb_true_r.
Qed.

(** What one readiness notification does to a reply. *)
Lemma read_reply_effect reads s s' :
  read_reply reads s = Some s' ->
  local_socket s' = local_socket s
  /\ offset s' = offset s
  /\ isOpen s' = isOpen s
  /\ isFinished s' = true
  /\ reply_data s' = fst (drain reads (reply_data s, 0%Z))
  /\ (chunked_transfer_encoding s = true ->
      chunked_transfer_encoding s' = true)
  /\ ((error s' = error s /\ errorString s' = errorString s
       /\ emitted s' = emitted s ++ [sig_finished])
      \/ (error s' <> NoError
          /\ emitted s' = emitted s ++ [sig_error (error s'); sig_finished])).
Proof.
  intros H. pose proof (read_reply_unfold reads s) as E. cbv zeta in E.
  rewrite E in H. clear E.
  set (buf := fst (drain reads (reply_data s, 0%Z))) in *.
  destruct (scan_lines _ _) as [s1|] eqn:Hscan; [|discriminate].
  cbn [option_map] in H. inversion H; subst s'; clear H.
  destruct (scan_lines_changes _ _ _ Hscan) as [Es1 Hmono].
  destruct (parse_status_effect (hd [] (Qt.split LF buf))
              (set_reply_data buf s)) as [Ep | (code & message & Hcode & Ep)];
    rewrite Ep in Es1, Hmono; cbn in Es1, Hmono; rewrite Es1; cbn.
  - repeat split; try assumption. left. repeat split.
  - repeat split; try assumption. right. split; [exact Hcode|].
    rewrite <- app_assoc. reflexivity.
Qed.

(** X7. What a readiness notification changes and what it signals. When
    the parse is defined, [read_reply] finishes the reply, leaves the
    cursor, the open mode and the socket untouched, keeps the buffer it
    has read into, and never lowers the chunked flag. It signals the end
    exactly once, as the last signal; before it there is either no new
    signal, the stored error and message being the old ones, or exactly
    one error signal, which carries the error now stored, and that error
    is not [NoError]. *)
Theorem read_reply_signals_what_it_stores
  (reads : list QByteArray) (s s' : LocalSocketReply) :
  read_reply reads s = Some s' ->
  local_socket s' = local_socket s
  /\ offset s' = offset s
  /\ isOpen s' = isOpen s
  /\ isFinished s' = true
  /\ reply_data s' = fst (drain reads (reply_data s, 0%Z))
  /\ (chunked_transfer_encoding s = true ->
      chunked_transfer_encoding s' = true)
  /\ ((error s' = error s /\ errorString s' = errorString s
       /\ emitted s' = emitted s ++ [sig_finished])
      \/ (error s' <> NoError
          /\ emitted s' = emitted s ++ [sig_error (error s'); sig_finished])).
Proof. apply read_reply_effect. Qed.

Lemma read_reply_signals_what_it_stores_witness :
  let wire :=
    response_wire (bytes "HTTP/1.1 404 Not Found")
                  [bytes "Content-Type: application/json"]
                  (bytes "{}" ++ [LF]) in
  exists s',
    read_reply [wire] fresh_reply = Some s'
    /\ offset s' = offset fresh_reply
    /\ isOpen s' = isOpen fresh_reply
    /\ isFinished s' = true.
Proof.
  intros wire.
  pose proof (read_reply_plain_response
                (bytes "HTTP/1.1 404 Not Found")
                [bytes "Content-Type: application/json"]
                (bytes "{}" ++ [LF]) fresh_reply
                eq_refl eq_refl eq_refl eq_refl) as E.
  cbv zeta in E. fold wire in E.
  eexists. split; [exact E|].
  destruct (read_reply_signals_what_it_stores [wire] fresh_reply _ E)
    as (_ & Ho & Hopen & Hfin & _).
  split; [exact Ho|]. split; [exact Hopen | exact Hfin].
Defined.

(* ===================================================================== *)
(** * Further properties: the life of a reply *)
(* ===================================================================== *)

Lemma step_monotone e s out s' :
  step e s = Some (out, s') ->
  local_socket s' = local_socket s
  /\ (isFinished s = true -> isFinished s' = true)
  /\ (error s <> NoError -> error s' <> NoError)
  /\ (isOpen s = false -> isOpen s' = false)
  /\ (chunked_transfer_encoding s = true ->
      chunked_transfer_encoding s' = true)
  /\ (offset s <= offset s')%Z.
Proof.
  destruct e as [reads|maxSize|]; cbn [step]; intros H.
  - destruct (read_reply reads s) as [s1|] eqn:Hr; [|discriminate].
    inversion H; subst; clear H.
    destruct (read_reply_effect _ _ _ Hr)
      as (Hk & Ho & Hopen & Hfin & _ & Hc & Herr).
    repeat split; try assumption; try congruence; try lia.
    + intros Hne. destruct Herr as [(He & _ & _) | (He & _)];
        [rewrite He; exact Hne | exact He].
  - destruct (QIODevice_read maxSize s) as [[[n data] s1]|] eqn:Hr;
      [|discriminate].
    inversion H; subst; clear H.
    unfold QIODevice_read, readData in Hr.
    destruct (isOpen s) eqn:Hopen;
      [destruct (Z.ltb_spec maxSize 0);
       [|destruct (Z.ltb_spec (offset s) (Z.of_nat (length (content_data s))));
         [destruct (Z.ltb_spec
                      (Z.min maxSize
                         (Z.of_nat (length (content_data s)) - offset s)) 0)|]]|];
      inversion Hr; subst; clear Hr; cbn; repeat split; auto;
      try congruence; lia.
  - inversion H; subst; clear H. cbn.
    repeat split; auto; try discriminate; lia.
Qed.

(** X8. The life of a reply only goes forward, and the socket is left
    alone. Over any run of readiness notifications, reads and aborts that
    stays defined: the socket is as it was (nothing more is written to it
    and it is not disconnected, so a constructed reply has sent its request
    exactly once), a finished reply stays finished, a stored error is never
    cleared, a closed reply is never opened again, the chunked flag is
    never lowered, and the cursor never moves back. *)
Theorem reply_life_is_monotone (evs : list Event) :
  forall s s' : LocalSocketReply,
  snd (run evs s) = Some s' ->
  local_socket s' = local_socket s
  /\ (isFinished s = true -> isFinished s' = true)
  /\ (error s <> NoError -> error s' <> NoError)
  /\ (isOpen s = false -> isOpen s' = false)
  /\ (chunked_transfer_encoding s = true ->
      chunked_transfer_encoding s' = true)
  /\ (offset s <= offset s')%Z.
Proof.
  induction evs as [|e evs IH]; intros s s' H.
  - cbn in H. inversion H; subst. repeat split; auto; lia.
  - cbn [run] in H.
    destruct (step e s) as [[out s1]|] eqn:Hstep; [|discriminate].
    cbn [snd] in H.
    destruct (step_monotone _ _ _ _ Hstep) as (K1 & F1 & E1 & O1 & C1 & P1).
    destruct (IH _ _ H) as (K2 & F2 & E2 & O2 & C2 & P2).
    repeat split; auto; try congruence; lia.
Qed.

Lemma reply_life_is_monotone_witness :
  let evs := [ev_read 10%Z; ev_abort; ev_read 3%Z] in
  snd (run evs fresh_reply) = Some (abort fresh_reply)
  /\ local_socket (abort fresh_reply) = local_socket fresh_reply
  /\ (offset fresh_reply <= offset (abort fresh_reply))%Z.
Proof.
  intros evs.
  assert (H : snd (run evs fresh_reply) = Some (abort fresh_reply))
    by reflexivity.
  split; [exact H|].
  destruct (reply_life_is_monotone evs fresh_reply _ H)
    as (Hk & _ & _ & _ & _ & Ho).
  split; [exact Hk | exact Ho].
Defined.

(* ===================================================================== *)
(** * Further properties: the shape of the body *)
(* ===================================================================== *)

Lemma split_lines_no_lf a :
  Forall (fun l => no_lf l = true) (Qt.split LF a).
Proof.
  induction a as [|c r IH]; [repeat constructor|].
  cbn [Qt.split]. destruct (Ascii.eqb_spec c LF) as [->|Hc].
  - constructor; [reflexivity | exact IH].
  - pose proof (split_not_nil LF r) as Hn.
    destruct (Qt.split LF r) as [|l ls]; [congruence|].
    inversion IH as [|? ? Hl Hls]; subst.
    constructor; [|exact Hls].
    rewrite no_lf_cons, Hl, Ascii.eqb_sym.
    apply Ascii.eqb_neq in Hc. rewrite Hc. reflexivity.
Qed.

Lemma no_lf_trim_start a : no_lf a = true -> no_lf (Qt.trim_start a) = true.
Proof.
  induction a as [|c r IH]; intros H; [reflexivity|].
  cbn [Qt.trim_start]. destruct (Qt.ascii_isspace c); [|exact H].
  rewrite no_lf_cons in H. apply andb_true_iff in H as [_ H]. exact (IH H).
Qed.

Lemma no_lf_trim_end a : no_lf a = true -> no_lf (Qt.trim_end a) = true.
Proof.
  induction a as [|c r IH]; intros H; [reflexivity|].
  rewrite no_lf_cons in H. apply andb_true_iff in H as [Hc Hr].
  specialize (IH Hr). cbn [Qt.trim_end].
  destruct (Qt.trim_end r) as [|x r'].
  - destruct (Qt.ascii_isspace c); [reflexivity|].
    rewrite no_lf_cons, Hc. reflexivity.
  - rewrite no_lf_cons, Hc, IH. reflexivity.
Qed.

Lemma trim_end_idem a : Qt.trim_end (Qt.trim_end a) = Qt.trim_end a.
Proof.
  induction a as [|c r IH]; [reflexivity|].
  cbn [Qt.trim_end]. destruct (Qt.trim_end r) as [|x r'] eqn:E.
  - destruct (Qt.ascii_isspace c) eqn:Hc; [reflexivity|].
    cbn [Qt.trim_end]. now rewrite Hc.
  - change (Qt.trim_end (c :: x :: r'))
      with (match Qt.trim_end (x :: r') with
            | [] => if Qt.ascii_isspace c then [] else [c]
            | y :: r'' => c :: y :: r''
            end).
    rewrite IH. reflexivity.
Qed.

Lemma trim_start_head a :
  Qt.trim_start a = []
  \/ exists c r, Qt.trim_start a = c :: r /\ Qt.ascii_isspace c = false.
Proof.
  induction a as [|c r IH]; [left; reflexivity|].
  cbn [Qt.trim_start]. destruct (Qt.ascii_isspace c) eqn:Hc; [exact IH|].
  right. exists c, r. split; [reflexivity | exact Hc].
Qed.

(** Trimming what is trimmed changes nothing. *)
Lemma trimmed_idem a : Qt.trimmed (Qt.trimmed a) = Qt.trimmed a.
Proof.
  unfold Qt.trimmed.
  destruct (trim_start_head a) as [E | (c & r & E & Hc)]; rewrite E.
  - reflexivity.
  - assert (Hu : exists r', Qt.trim_end (c :: r) = c :: r').
    { cbn [Qt.trim_end]. destruct (Qt.trim_end r) as [|x r'].
      - rewrite Hc. now exists [].
      - now exists (x :: r'). }
    destruct Hu as [r' Hu].
    assert (Hs : Qt.trim_start (Qt.trim_end (c :: r)) = Qt.trim_end (c :: r)).
    { rewrite Hu. cbn [Qt.trim_start]. now rewrite Hc. }
    rewrite Hs. apply trim_end_idem.
Qed.

(** The body after the loop is the body before it, or a line, trimmed. *)
Lemma scan_lines_body lines :
  forall s s', scan_lines lines s = Some s' ->
  content_data s' = content_data s
  \/ exists l, In l lines /\ content_data s' = Qt.trimmed l.
Proof.
  induction lines as [|line rest IH]; intros s s' H; cbn [scan_lines] in H.
  - inversion H; subst. left. reflexivity.
  - change (if mentions_chunked line then set_chunked true s else s)
      with (raise_chunked (mentions_chunked line) s) in H.
    assert (Hr : content_data (raise_chunked (mentions_chunked line) s)
                 = content_data s)
      by (destruct (mentions_chunked line); reflexivity).
    destruct (is_separator line).
    + unfold take_body in H.
      destruct (nth_error rest _) as [body|] eqn:Hn; inversion H; subst.
      right. exists body. split; [|reflexivity].
      right. exact (nth_error_In _ _ Hn).
    + destruct (IH _ _ H) as [E | (l & Hin & E)].
      * left. rewrite E. exact Hr.
      * right. exists l. split; [right; exact Hin | exact E].
Qed.

Lemma read_reply_body reads s s' :
  read_reply reads s = Some s' ->
  content_data s' = content_data s
  \/ exists l,
       In l (Qt.split LF (fst (drain reads (reply_data s, 0%Z))))
       /\ content_data s' = Qt.trimmed l.
Proof.
  intros H. pose proof (read_reply_unfold reads s) as E. cbv zeta in E.
  rewrite E in H. clear E.
  set (buf := fst (drain reads (reply_data s, 0%Z))) in *.
  destruct (scan_lines _ _) as [s1|] eqn:Hscan; [|discriminate].
  cbn [option_map] in H. inversion H; subst s'; clear H.
  cbn [content_data emit setFinished].
  assert (Hp : content_data (parse_status (hd [] (Qt.split LF buf))
                                          (set_reply_data buf s))
               = content_data s).
  { destruct (parse_status_effect (hd [] (Qt.split LF buf))
                (set_reply_data buf s)) as [Ep | (c & m & _ & Ep)];
      rewrite Ep; reflexivity. }
  destruct (scan_lines_body _ _ _ Hscan) as [Eb | (l & Hin & Eb)].
  - left. rewrite Eb. exact Hp.
  - right. exists l. split; [|exact Eb].
    rewrite (split_hd_tl LF buf). right. exact Hin.
Qed.

Lemma step_body e s out s' :
  step e s = Some (out, s') ->
  no_lf (content_data s) = true
  /\ Qt.trimmed (content_data s) = content_data s ->
  no_lf (content_data s') = true
  /\ Qt.trimmed (content_data s') = content_data s'.
Proof.
  destruct e as [reads|maxSize|]; cbn [step]; intros H Hinv.
  - destruct (read_reply reads s) as [s1|] eqn:Hr; [|discriminate].
    inversion H; subst; clear H.
    destruct (read_reply_body _ _ _ Hr) as [E | (l & Hin & E)].
    + rewrite E. exact Hinv.
    + rewrite E. split; [|apply trimmed_idem].
      pose proof (split_lines_no_lf (fst (drain reads (reply_data s, 0%Z))))
        as Hall.
      rewrite Forall_forall in Hall. specialize (Hall l Hin).
      unfold Qt.trimmed. apply no_lf_trim_end, no_lf_trim_start. exact Hall.
  - destruct (QIODevice_read maxSize s) as [[[n data] s1]|] eqn:Hr;
      [|discriminate].
    inversion H; subst; clear H.
    unfold QIODevice_read, readData in Hr.
    repeat match type of Hr with
    | (if ?c then _ else _) = _ => destruct c
    end; inversion Hr; subst; exact Hinv.
  - inversion H; subst. exact Hinv.
Qed.

(** X9. The body never holds a line feed and is always trimmed. At every
    point of the life of a constructed reply, whatever was received and
    however it was cut into reads and notifications, the body has no line
    feed in it and no white space at either end: it is empty or one
    trimmed line of the buffer. *)
Theorem body_is_one_trimmed_line
  (version_string : QByteArray) (k : QLocalSocket) (request : QNetworkRequest)
  (outgoingData : option QByteArray) (evs : list Event) :
  forall s' : LocalSocketReply,
  snd (run evs (construct version_string k request outgoingData)) = Some s' ->
  no_lf (content_data s') = true
  /\ Qt.trimmed (content_data s') = content_data s'.
Proof.
  assert (Hgen : forall evs s s',
             no_lf (content_data s) = true
             /\ Qt.trimmed (content_data s) = content_data s ->
             snd (run evs s) = Some s' ->
             no_lf (content_data s') = true
             /\ Qt.trimmed (content_data s') = content_data s').
  { clear evs. induction evs as [|e evs IH]; intros s s' Hinv H.
    - cbn in H. inversion H; subst. exact Hinv.
    - cbn [run] in H.
      destruct (step e s) as [[out s1]|] eqn:Hstep; [|discriminate].
      cbn [snd] in H. apply (IH s1 s'); [|exact H].
      exact (step_body _ _ _ _ Hstep Hinv). }
  intros s' H.
  apply (Hgen evs (construct version_string k request outgoingData) s');
    [|exact H].
  split; reflexivity.
Qed.

Lemma body_is_one_trimmed_line_witness :
  let wire :=
    response_wire (bytes "HTTP/1.1 200 OK")
                  [bytes "Content-Type: application/json"]
                  (bytes "  [1, 2]  " ++ [LF] ++ bytes "more") in
  let evs := [ev_readyRead [wire]] in
  exists s',
    snd (run evs
           (construct (bytes "1.14.0") (mkSocket true [])
                      (mkRequest (bytes "GET") (bytes "/1.0")) None))
    = Some s'
    /\ no_lf (content_data s') = true
    /\ Qt.trimmed (content_data s') = content_data s'.
Proof.
  intros wire evs.
  pose proof (read_reply_plain_response
                (bytes "HTTP/1.1 200 OK")
                [bytes "Content-Type: application/json"]
                (bytes "  [1, 2]  " ++ [LF] ++ bytes "more") fresh_reply
                eq_refl eq_refl eq_refl eq_refl) as E.
  cbv zeta in E. fold wire in E. unfold fresh_reply in E.
  eexists. split.
  - subst evs. cbn [run step]. rewrite E. reflexivity.
  - eapply (body_is_one_trimmed_line
              (bytes "1.14.0") (mkSocket true [])
              (mkRequest (bytes "GET") (bytes "/1.0")) None evs).
    subst evs. cbn [run step]. rewrite E. reflexivity.
Defined.

(* ===================================================================== *)
(** * Further properties: the buffer *)
(* ===================================================================== *)

Lemma length_read_into buf chunk :
  (length chunk <= length buf)%nat ->
  length (read_into buf chunk) = length buf.
Proof.
  intros H. unfold read_into. rewrite length_app, length_skipn. lia.
Qed.

Lemma firstn_read_into buf chunk :
  firstn (length chunk) (read_into buf chunk) = chunk.
Proof.
  unfold read_into.
  rewrite <- (Nat.add_0_r (length chunk)), firstn_app_2.
  cbn [firstn]. apply app_nil_r.
Qed.

Lemma drain_length reads :
  forall buf p,
  forallb (fun r => (length r <=? length buf)%nat) reads = true ->
  length (fst (drain reads (buf, p))) = length buf.
Proof.
  induction reads as [|r reads IH]; intros buf p H; [reflexivity|].
  cbn [forallb] in H. apply andb_true_iff in H as [Hr Hrest].
  apply Nat.leb_le in Hr.
  cbn [drain fst snd].
  destruct (Z.of_nat (length r) >? 0)%Z.
  - rewrite IH; rewrite length_read_into by exact Hr;
      [reflexivity | exact Hrest].
  - cbn [fst]. apply length_read_into. exact Hr.
Qed.

Lemma split_line_length sep a :
  forall l, In l (Qt.split sep a) -> (length l <= length a)%nat.
Proof.
  induction a as [|c r IH]; intros l Hin.
  - cbn in Hin. destruct Hin as [<-|[]]. reflexivity.
  - cbn [Qt.split] in Hin. destruct (Ascii.eqb c sep).
    + destruct Hin as [<-|Hin]; [cbn; lia|].
      specialize (IH l Hin). cbn [length]. lia.
    + pose proof (split_not_nil sep r) as Hn.
      destruct (Qt.split sep r) as [|l0 ls]; [congruence|].
      destruct Hin as [<-|Hin].
      * specialize (IH l0 (or_introl eq_refl)). cbn [length]. lia.
      * specialize (IH l (or_intror Hin)). cbn [length]. lia.
Qed.

Lemma trim_start_length a : (length (Qt.trim_start a) <= length a)%nat.
Proof.
  induction a as [|c r IH]; [reflexivity|].
  cbn [Qt.trim_start]. destruct (Qt.ascii_isspace c); cbn [length]; lia.
Qed.

Lemma trim_end_length a : (length (Qt.trim_end a) <= length a)%nat.
Proof.
  induction a as [|c r IH]; [reflexivity|].
  cbn [Qt.trim_end]. destruct (Qt.trim_end r) as [|x r'].
  - destruct (Qt.ascii_isspace c); cbn [length]; lia.
  - cbn [length] in *. lia.
Qed.

Lemma trimmed_length a : (length (Qt.trimmed a) <= length a)%nat.
Proof.
  unfold Qt.trimmed.
  pose proof (trim_end_length (Qt.trim_start a)).
  pose proof (trim_start_length a). lia.
Qed.

Lemma step_sizes n e s out s' :
  reads_fit n e = true ->
  step e s = Some (out, s') ->
  length (reply_data s) = n /\ (length (content_data s) <= n)%nat ->
  length (reply_data s') = n /\ (length (content_data s') <= n)%nat.
Proof.
  intros Hfit H [Hb Hc]. subst n.
  destruct e as [reads|maxSize|]; cbn [step reads_fit] in Hfit, H.
  - destruct (read_reply reads s) as [s1|] eqn:Hr; [|discriminate].
    inversion H; subst s1; clear H.
    destruct (read_reply_effect _ _ _ Hr) as (_ & _ & _ & _ & Hbuf & _).
    assert (Hlen : length (reply_data s') = length (reply_data s)).
    { rewrite Hbuf. apply drain_length. exact Hfit. }
    split; [exact Hlen|].
    destruct (read_reply_body _ _ _ Hr) as [E | (l & Hin & E)].
    + rewrite E. exact Hc.
    + rewrite E. pose proof (trimmed_length l).
      pose proof (split_line_length LF _ l Hin) as Hl.
      rewrite <- Hbuf, Hlen in Hl. lia.
  - destruct (QIODevice_read maxSize s) as [[[m data] s1]|] eqn:Hr;
      [|discriminate].
    inversion H; subst; clear H.
    unfold QIODevice_read, readData in Hr.
    repeat match type of Hr with
    | (if ?c then _ else _) = _ => destruct c
    end; inversion Hr; subst; split; (reflexivity || exact Hc).
  - inversion H; subst. split; [reflexivity | exact Hc].
Qed.

(** X10. The buffer keeps its 65536 bytes and the body fits in it. As
    long as no read returns more bytes than [read] was asked for, at every
    point of the life of a constructed reply the buffer is [len] bytes
    long and the body is at most [len] bytes long. *)
Theorem buffer_keeps_its_length
  (version_string : QByteArray) (k : QLocalSocket) (request : QNetworkRequest)
  (outgoingData : option QByteArray) (evs : list Event) :
  forall s' : LocalSocketReply,
  forallb (reads_fit (Z.to_nat len)) evs = true ->
  snd (run evs (construct version_string k request outgoingData)) = Some s' ->
  Z.of_nat (length (reply_data s')) = len
  /\ (Z.of_nat (length (content_data s')) <= len)%Z.
Proof.
  assert (Hgen : forall n evs s s',
             forallb (reads_fit n) evs = true ->
             length (reply_data s) = n /\ (length (content_data s) <= n)%nat ->
             snd (run evs s) = Some s' ->
             length (reply_data s') = n
             /\ (length (content_data s') <= n)%nat).
  { clear evs. intros n. induction evs as [|e evs IH]; intros s s' Hfit Hinv H.
    - cbn in H. inversion H; subst. exact Hinv.
    - cbn [forallb] in Hfit. apply andb_true_iff in Hfit as [He Hfit].
      cbn [run] in H.
      destruct (step e s) as [[out s1]|] eqn:Hstep; [|discriminate].
      cbn [snd] in H. apply (IH s1 s' Hfit); [|exact H].
      exact (step_sizes n _ _ _ _ He Hstep Hinv). }
  intros s' Hfit H.
  destruct (Hgen (Z.to_nat len) evs
              (construct version_string k request outgoingData) s' Hfit)
    as [Hb Hc]; [|exact H|].
  - split; [|cbn; lia].
    change (length (repeat NUL (Z.to_nat len)) = Z.to_nat len).
    apply repeat_length.
  - rewrite Hb. rewrite Z2Nat.id by (unfold len; lia).
    split; [reflexivity|].
    apply Nat2Z.inj_le in Hc. rewrite Z2Nat.id in Hc by (unfold len; lia).
    exact Hc.
Qed.

Lemma buffer_keeps_its_length_witness :
  let wire :=
    response_wire (bytes "HTTP/1.1 200 OK")
                  [bytes "Content-Type: application/json"]
                  (bytes "[1, 2]" ++ [LF]) in
  let evs := [ev_readyRead [wire]] in
  forallb (reads_fit (Z.to_nat len)) evs = true
  /\ exists s',
       snd (run evs
              (construct (bytes "1.14.0") (mkSocket true [])
                         (mkRequest (bytes "GET") (bytes "/1.0")) None))
       = Some s'
       /\ Z.of_nat (length (reply_data s')) = len
       /\ (Z.of_nat (length (content_data s')) <= len)%Z.
Proof.
  intros wire evs.
  assert (Hfit : forallb (reads_fit (Z.to_nat len)) evs = true)
    by (vm_compute; reflexivity).
  split; [exact Hfit|].
  pose proof (read_reply_plain_response
                (bytes "HTTP/1.1 200 OK")
                [bytes "Content-Type: application/json"]
                (bytes "[1, 2]" ++ [LF]) fresh_reply
                eq_refl eq_refl eq_refl eq_refl) as E.
  cbv zeta in E. fold wire in E. unfold fresh_reply in E.
  eexists. split.
  - subst evs. cbn [run step]. rewrite E. reflexivity.
  - eapply (buffer_keeps_its_length
              (bytes "1.14.0") (mkSocket true [])
              (mkRequest (bytes "GET") (bytes "/1.0")) None evs _ Hfit).
    subst evs. cbn [run step]. rewrite E. reflexivity.
Defined.

(** X11. After a burst the buffer starts with the last read. When every
    read of a burst returns at least one byte and no more than the buffer
    holds, the buffer keeps its length, its first bytes are those of the
    last read (earlier reads are overwritten from the first byte on and
    survive only beyond the length of the later ones), and [data_ptr] has
    moved on by the number of bytes of all the reads. *)
Theorem burst_leaves_last_read_in_front
  (reads : list QByteArray) (last_read : QByteArray) :
  forall (buf : QByteArray) (data_ptr : Z),
  forallb (fun r => negb (Qt.isEmpty r) && (length r <=? length buf)%nat)
          (reads ++ [last_read]) = true ->
  firstn (length last_read)
         (fst (drain (reads ++ [last_read]) (buf, data_ptr)))
  = last_read
  /\ length (fst (drain (reads ++ [last_read]) (buf, data_ptr)))
     = length buf
  /\ snd (drain (reads ++ [last_read]) (buf, data_ptr))
     = (data_ptr + bytes_of (reads ++ [last_read]))%Z.
Proof.
  induction reads as [|r reads IH]; intros buf data_ptr H.
  - cbn [app forallb] in H. rewrite andb_true_r in H.
    apply andb_true_iff in H as [_ Hlen]. apply Nat.leb_le in Hlen.
    cbn [app]. rewrite drain_single. cbn [fst snd bytes_of fold_right].
    split; [apply firstn_read_into|].
    split; [apply length_read_into; exact Hlen | lia].
  - cbn [app forallb] in H. apply andb_true_iff in H as [Hr Hrest].
    apply andb_true_iff in Hr as [Hne Hlen]. apply Nat.leb_le in Hlen.
    cbn [app drain fst snd].
    assert (Hpos : (Z.of_nat (length r) >? 0)%Z = true).
    { destruct r; [discriminate|]. cbn [length]. apply Z.gtb_lt. lia. }
    rewrite Hpos.
    destruct (IH (read_into buf r) (data_ptr + Z.of_nat (length r))%Z)
      as (Hfirst & Hl & Hp).
    { rewrite length_read_into by exact Hlen. exact Hrest. }
    split; [exact Hfirst|].
    split; [rewrite Hl; apply length_read_into; exact Hlen|].
    rewrite Hp. cbn [bytes_of fold_right]. fold (bytes_of (reads ++ [last_read])).
    lia.
Qed.

Lemma burst_leaves_last_read_in_front_witness :
  let buf := repeat NUL 16 in
  forallb (fun r => negb (Qt.isEmpty r) && (length r <=? length buf)%nat)
          ([bytes "HTTP/1.1 200 OK"; bytes "hello"] ++ [bytes "AB"]) = true
  /\ firstn (length (bytes "AB"))
            (fst (drain ([bytes "HTTP/1.1 200 OK"; bytes "hello"]
                         ++ [bytes "AB"]) (buf, 0%Z)))
     = bytes "AB"
  /\ snd (drain ([bytes "HTTP/1.1 200 OK"; bytes "hello"] ++ [bytes "AB"])
                (buf, 0%Z))
     = 22%Z.
Proof.
  intros buf.
  assert (H : forallb
                (fun r => negb (Qt.isEmpty r) && (length r <=? length buf)%nat)
                ([bytes "HTTP/1.1 200 OK"; bytes "hello"] ++ [bytes "AB"])
              = true) by reflexivity.
  split; [exact H|].
  destruct (burst_leaves_last_read_in_front
              [bytes "HTTP/1.1 200 OK"; bytes "hello"] (bytes "AB") buf 0%Z H)
    as (Hfirst & _ & Hp).
  split; [exact Hfirst | exact Hp].
Defined.

(* ===================================================================== *)
(** * Further properties: bare line feeds, and the lines that are refused *)
(* ===================================================================== *)

Lemma is_separator_header_lf h : header_ok h = true -> is_separator h = false.
Proof.
  unfold header_ok, is_separator. intros H.
  apply andb_true_iff in H as [H Hcr]. apply andb_true_iff in H as [_ Hne].
  apply negb_true_iff in Hcr, Hne. rewrite Hcr, Hne. reflexivity.
Qed.

Lemma response_lf_lines status headers body tail :
  no_lf status = true -> forallb header_ok headers = true ->
  Qt.split LF (response_wire_lf status headers body ++ tail)
  = status :: headers ++ [] :: Qt.split LF (body ++ tail).
Proof.
  intros Hs Hh. unfold response_wire_lf. rewrite <- !app_assoc.
  cbn [app]. rewrite split_line by exact Hs. f_equal.
  induction headers as [|h headers IH].
  - cbn [map concat app]. apply (split_line [] (body ++ tail)). reflexivity.
  - cbn [forallb] in Hh. apply andb_true_iff in Hh as [Hh1 Hh].
    cbn [map concat]. rewrite <- !app_assoc. cbn [app].
    rewrite split_line.
    + f_equal. apply IH. exact Hh.
    + unfold header_ok in Hh1.
      apply andb_true_iff in Hh1 as [Hh1 _].
      apply andb_true_iff in Hh1 as [Hh1 _]. exact Hh1.
Qed.

Lemma headers_no_separator_lf headers :
  forallb header_ok headers = true ->
  forallb (fun l => negb (is_separator l)) headers = true.
Proof.
  induction headers as [|h headers IH]; intros H; [reflexivity|].
  cbn [forallb] in H. apply andb_true_iff in H as [Hh H].
  cbn [forallb]. rewrite (is_separator_header_lf h Hh), (IH H). reflexivity.
Qed.

(** X12. Lines ended by a bare line feed are read as well, and then the
    message is the reason phrase as it is. For a response whose lines end
    with LF alone, with a status line of the right shape, no chunk marking
    and a body that goes on after its first line feed, the reply finishes
    with the first line of the body, trimmed, as body; a code of 400 or
    more stores the category of the code with the reason phrase itself as
    message (no CR is left on it), and a smaller code stores nothing. *)
Theorem bare_line_feed_response_is_parsed
  (v1 v2 d1 d2 d3 : ascii) (reason : QString) (headers : list QByteArray)
  (body_line rest : QByteArray) (s : LocalSocketReply) :
  Qt.is_digit v1 = true -> Qt.is_digit v2 = true ->
  Qt.is_digit d1 = true -> Qt.is_digit d2 = true -> Qt.is_digit d3 = true ->
  no_lf reason = true -> no_nul reason = true ->
  forallb header_ok headers = true ->
  existsb mentions_chunked headers = false ->
  chunked_transfer_encoding s = false ->
  no_lf body_line = true ->
  let code := fst (Qt.toInt [d1; d2; d3]) in
  exists s',
    read_reply
      [response_wire_lf (any_status_line v1 v2 d1 d2 d3 reason) headers
                        (body_line ++ LF :: rest)] s
    = Some s'
    /\ isFinished s' = true
    /\ content_data s' = Qt.trimmed body_line
    /\ ((400 <= code)%Z ->
        error s' = statusCodeFromHttp code /\ errorString s' = reason)
    /\ ((code < 400)%Z ->
        error s' = error s /\ errorString s' = errorString s).
Proof.
  intros Hv1 Hv2 H1 H2 H3 Hlf Hnul Hh Hm Hflag Hb code.
  assert (Hs : no_lf (any_status_line v1 v2 d1 d2 d3 reason) = true)
    by (apply no_lf_any_status_line; assumption).
  unfold read_reply. rewrite drain_single. unfold read_into, parse_reply.
  cbn [reply_data set_reply_data].
  rewrite (response_lf_lines _ headers _ _ Hs Hh).
  rewrite (scan_lines_headers headers [] _ _ (headers_no_separator_lf _ Hh)
             eq_refl).
  rewrite existsb_app, Hm. cbn [existsb orb raise_chunked].
  change (mentions_chunked []) with false. cbn [orb raise_chunked].
  unfold take_body. rewrite parse_status_chunked.
  cbn [chunked_transfer_encoding set_reply_data]. rewrite Hflag.
  rewrite <- app_assoc. cbn [app]. rewrite (split_line body_line _ Hb).
  cbn [nth_error]. eexists. split; [reflexivity|].
  split; [reflexivity|]. split; [reflexivity|].
  cbn [error errorString emit setFinished set_content_data].
  unfold parse_status.
  rewrite (regex_on_any_status_line v1 v2 d1 d2 d3 reason
             Hv1 Hv2 H1 H2 H3 Hlf Hnul).
  cbn [Regex.captured_status Regex.captured_message].
  assert (Hcode : Qt.toInt [d1; d2; d3] = (code, true)).
  { subst code. rewrite (toInt_three_digits d1 d2 d3 H1 H2 H3). reflexivity. }
  rewrite Hcode.
  destruct (Z.geb_spec code 400) as [Hge|Hlt].
  - split; [intros _; split; reflexivity | intros Hlt; lia].
  - split; [intros Hge; lia | intros _; split; reflexivity].
Qed.

Lemma bare_line_feed_response_is_parsed_witness :
  let headers := [bytes "Content-Type: application/json"] in
  Qt.is_digit "1" = true /\ Qt.is_digit "1" = true
  /\ Qt.is_digit "4" = true /\ Qt.is_digit "0" = true
  /\ Qt.is_digit "9" = true
  /\ no_lf (bytes "Conflict") = true /\ no_nul (bytes "Conflict") = true
  /\ forallb header_ok headers = true
  /\ existsb mentions_chunked headers = false
  /\ chunked_transfer_encoding fresh_reply = false
  /\ no_lf (bytes "{}") = true
  /\ exists s',
       read_reply
         [response_wire_lf
            (any_status_line "1" "1" "4" "0" "9" (bytes "Conflict"))
            headers (bytes "{}" ++ LF :: [])]
         fresh_reply
       = Some s'
       /\ content_data s' = Qt.trimmed (bytes "{}")
       /\ error s' = ContentConflictError
       /\ errorString s' = bytes "Conflict".
Proof.
  intros headers. repeat (split; [reflexivity|]).
  destruct (bare_line_feed_response_is_parsed
              "1" "1" "4" "0" "9" (bytes "Conflict") headers (bytes "{}") []
              fresh_reply eq_refl eq_refl eq_refl eq_refl eq_refl eq_refl
              eq_refl eq_refl eq_refl eq_refl eq_refl)
    as (s' & Hr & _ & Hbody & H400 & _).
  exists s'. split; [exact Hr|]. split; [exact Hbody|].
  destruct H400 as [He Hm]; [vm_compute; discriminate|].
  split; [exact He | exact Hm].
Defined.

Lemma startsWith_inv p :
  forall a, Qt.startsWith a p = true -> a = p ++ skipn (length p) a.
Proof.
  induction p as [|x p IH]; intros a H; [reflexivity|].
  destruct a as [|c a]; [discriminate|].
  cbn [Qt.startsWith] in H. apply andb_true_iff in H as [Hc Ha].
  apply Ascii.eqb_eq in Hc. subst x.
  cbn [length skipn app]. f_equal. apply IH. exact Ha.
Qed.

Lemma lit_inv p s r : Regex.lit p s = Some r -> s = p ++ r.
Proof.
  unfold Regex.lit. destruct (Qt.startsWith s p) eqn:E; [|discriminate].
  intros H. inversion H; subst. apply startsWith_inv. exact E.
Qed.

Lemma digit_inv s c r :
  Regex.digit s = Some (c, r) -> s = c :: r /\ Qt.is_digit c = true.
Proof.
  unfold Regex.digit. destruct s as [|x s]; [discriminate|].
  destruct (Qt.is_digit x) eqn:E; [|discriminate].
  intros H. inversion H; subst. split; [reflexivity | exact E].
Qed.

(** A subject the pattern matches has the shape of a status line. *)
Lemma regex_shape subject m :
  Regex.http_status_regex subject = Some m ->
  exists v1 v2 d1 d2 d3 rest,
    subject = any_status_line v1 v2 d1 d2 d3 rest
    /\ Qt.is_digit v1 = true /\ Qt.is_digit v2 = true
    /\ Qt.is_digit d1 = true /\ Qt.is_digit d2 = true
    /\ Qt.is_digit d3 = true
    /\ Regex.captured_status m = [d1; d2; d3]
    /\ Regex.dot_star_eol rest = Some (Regex.captured_message m).
Proof.
  unfold Regex.http_status_regex. intros H.
  destruct (Regex.lit (bytes "HTTP/") subject) as [s1|] eqn:E1;
    [|discriminate].
  destruct (Regex.digit s1) as [[v1 r1]|] eqn:E2; [|discriminate].
  cbn [snd fst] in H.
  destruct (Regex.lit (bytes ".") r1) as [s2|] eqn:E3; [|discriminate].
  destruct (Regex.digit s2) as [[v2 r2]|] eqn:E4; [|discriminate].
  cbn [snd fst] in H.
  destruct (Regex.lit [SP] r2) as [s3|] eqn:E5; [|discriminate].
  destruct (Regex.digit s3) as [[d1 r3]|] eqn:E6; [|discriminate].
  cbn [snd fst] in H.
  destruct (Regex.digit r3) as [[d2 r4]|] eqn:E7; [|discriminate].
  cbn [snd fst] in H.
  destruct (Regex.digit r4) as [[d3 r5]|] eqn:E8; [|discriminate].
  cbn [snd fst] in H.
  destruct (Regex.lit [SP] r5) as [s4|] eqn:E9; [|discriminate].
  destruct (Regex.dot_star_eol s4) as [msg|] eqn:E10; [|discriminate].
  inversion H; subst m; clear H.
  apply lit_inv in E1, E3, E5, E9.
  apply digit_inv in E2, E4, E6, E7, E8.
  destruct E2 as [-> Hv1]. destruct E4 as [-> Hv2]. destruct E6 as [-> H1].
  destruct E7 as [-> H2]. destruct E8 as [-> H3]. subst.
  exists v1, v2, d1, d2, d3, s4.
  repeat split; try assumption.
Qed.

Lemma no_lf_app_r a b : no_lf (a ++ b) = true -> no_lf b = true.
Proof.
  rewrite no_lf_app. intros H. apply andb_true_iff in H as [_ H]. exact H.
Qed.

Lemma no_nul_app_r a b : no_nul (a ++ b) = true -> no_nul b = true.
Proof.
  rewrite no_nul_app. intros H. apply andb_true_iff in H as [_ H]. exact H.
Qed.

Lemma any_status_line_reason v1 v2 d1 d2 d3 reason :
  any_status_line v1 v2 d1 d2 d3 reason
  = (bytes "HTTP/" ++ [v1] ++ bytes "." ++ [v2] ++ [SP] ++ [d1; d2; d3]
     ++ [SP]) ++ reason.
Proof. unfold any_status_line. rewrite <- !app_assoc. reflexivity. Qed.

(** X13. [parse_status] refuses exactly the lines that are not of the
    shape of a status line. For a line without line feed and without NUL,
    either it is made of HTTP/, a digit, a dot, a digit, a space, three
    digits, a space and some text, and then it is classified by its three
    digits with the text as message; or it is of that shape for no choice
    of digits and text, and then the reply gets the protocol failure with
    its fixed message. In particular a status line without the space
    after the code is refused. *)
Theorem parse_status_refuses_exactly_other_shapes
  (status : QByteArray) (s : LocalSocketReply) :
  no_lf status = true -> no_nul status = true ->
  (exists v1 v2 d1 d2 d3 reason,
      status = any_status_line v1 v2 d1 d2 d3 reason
      /\ Qt.is_digit v1 = true /\ Qt.is_digit v2 = true
      /\ Qt.is_digit d1 = true /\ Qt.is_digit d2 = true
      /\ Qt.is_digit d3 = true
      /\ parse_status status s
         = if (fst (Qt.toInt [d1; d2; d3]) >=? 400)%Z
           then emit (sig_error
                        (statusCodeFromHttp (fst (Qt.toInt [d1; d2; d3]))))
                     (setError
                        (statusCodeFromHttp (fst (Qt.toInt [d1; d2; d3])))
                        reason s)
           else s)
  \/ ((forall v1 v2 d1 d2 d3 reason,
         Qt.is_digit v1 = true -> Qt.is_digit v2 = true ->
         Qt.is_digit d1 = true -> Qt.is_digit d2 = true ->
         Qt.is_digit d3 = true ->
         status <> any_status_line v1 v2 d1 d2 d3 reason)
      /\ parse_status status s
         = emit (sig_error ProtocolFailure)
                (setError ProtocolFailure
                          (bytes "Malformed HTTP response from server") s)).
Proof.
  intros Hlf Hnul. unfold parse_status.
  rewrite (fromLatin1_no_nul _ Hnul).
  destruct (Regex.http_status_regex status) as [m|] eqn:E.
  - left.
    destruct (regex_shape _ _ E)
      as (v1 & v2 & d1 & d2 & d3 & rest & Hshape & Hv1 & Hv2 & H1 & H2 & H3
          & Hst & Hmsg).
    exists v1, v2, d1, d2, d3, rest.
    repeat (split; [assumption|]).
    assert (Hrest : no_lf rest = true).
    { rewrite Hshape, any_status_line_reason in Hlf.
      exact (no_lf_app_r _ _ Hlf). }
    rewrite (dot_star_eol_no_lf _ Hrest) in Hmsg. inversion Hmsg as [Hm].
    rewrite Hst. destruct (Qt.toInt [d1; d2; d3]) as [code ok].
    cbn [fst]. reflexivity.
  - right. split; [|reflexivity].
    intros v1 v2 d1 d2 d3 reason Hv1 Hv2 H1 H2 H3 Hshape.
    assert (Hr : no_lf reason = true /\ no_nul reason = true).
    { rewrite Hshape, any_status_line_reason in Hlf, Hnul.
      split; [exact (no_lf_app_r _ _ Hlf) | exact (no_nul_app_r _ _ Hnul)]. }
    destruct Hr as [Hrl Hrn].
    pose proof (regex_on_any_status_line v1 v2 d1 d2 d3 reason
                  Hv1 Hv2 H1 H2 H3 Hrl Hrn) as Hok.
    rewrite <- Hshape, (fromLatin1_no_nul _ Hnul), E in Hok. discriminate.
Qed.

Lemma parse_status_refuses_exactly_other_shapes_witness :
  let status := bytes "HTTP/1.1 200" ++ [CR] in
  no_lf status = true
  /\ no_nul status = true
  /\ parse_status status fresh_reply
     = emit (sig_error ProtocolFailure)
            (setError ProtocolFailure
                      (bytes "Malformed HTTP response from server")
                      fresh_reply).
Proof.
  intros status. split; [reflexivity|]. split; [reflexivity|].
  destruct (parse_status_refuses_exactly_other_shapes
              status fresh_reply eq_refl eq_refl)
    as [(v1 & v2 & d1 & d2 & d3 & reason & Hshape & _) | [_ Hfail]].
  - exfalso. subst status. unfold any_status_line in Hshape.
    cbn [bytes list_ascii_of_string app] in Hshape.
    inversion Hshape.
  - exact Hfail.
Defined.

(* ===================================================================== *)
(** * Further properties: the request on the socket, the size of a chunk *)
(* ===================================================================== *)

(** X14. The request is written to the socket once. A constructed reply
    has appended the bytes of its request to what the socket had been
    given before, and at every later point of its life, after any
    notifications, reads and aborts, the socket still holds exactly that
    and is connected as it was: nothing is written twice and the reply
    does not disconnect before it is destroyed. *)
Theorem request_is_written_once
  (version_string : QByteArray) (k : QLocalSocket) (request : QNetworkRequest)
  (outgoingData : option QByteArray) (evs : list Event) :
  forall s' : LocalSocketReply,
  snd (run evs (construct version_string k request outgoingData)) = Some s' ->
  local_socket s'
  = Some (mkSocket (connected k)
                   (written k ++ http_data version_string request outgoingData)).
Proof.
  assert (Hgen : forall evs s s',
             snd (run evs s) = Some s' -> local_socket s' = local_socket s).
  { clear evs. induction evs as [|e evs IH]; intros s s' H.
    - cbn in H. inversion H; subst. reflexivity.
    - cbn [run] in H.
      destruct (step e s) as [[out s1]|] eqn:Hstep; [|discriminate].
      cbn [snd] in H.
      destruct (step_monotone _ _ _ _ Hstep) as [Hk _].
      rewrite (IH _ _ H). exact Hk. }
  intros s' H. rewrite (Hgen _ _ _ H). reflexivity.
Qed.

Lemma request_is_written_once_witness :
  let evs := [ev_read 4%Z; ev_abort; ev_read 4%Z] in
  let k := mkSocket true (bytes "earlier") in
  let request := mkRequest (bytes "GET") (bytes "/1.0") in
  snd (run evs (construct (bytes "1.14.0") k request None))
  = Some (abort (construct (bytes "1.14.0") k request None))
  /\ local_socket (abort (construct (bytes "1.14.0") k request None))
     = Some (mkSocket true
               (bytes "earlier"
                ++ http_data (bytes "1.14.0") request None)).
Proof.
  intros evs k request.
  assert (H : snd (run evs (construct (bytes "1.14.0") k request None))
              = Some (abort (construct (bytes "1.14.0") k request None)))
    by reflexivity.
  split; [exact H|].
  exact (request_is_written_once (bytes "1.14.0") k request None evs _ H).
Defined.

(** X15. The size of a chunk is never read. When a header line marks the
    response as chunked, or the flag is up from an earlier notification,
    the body is the second line after the blank line, trimmed, whatever
    the first of those lines holds: the line of the size is skipped
    without being read, so a size that does not agree with the data goes
    unnoticed, and what follows the line of the data is left out. *)
Theorem chunk_size_line_is_skipped_unread
  (status : QByteArray) (headers : list QByteArray)
  (size_line data_line rest : QByteArray) (s : LocalSocketReply) :
  no_lf status = true ->
  forallb header_ok headers = true ->
  existsb mentions_chunked headers || chunked_transfer_encoding s = true ->
  no_lf size_line = true ->
  no_lf data_line = true ->
  exists s',
    read_reply
      [response_wire status headers
         (size_line ++ LF :: data_line ++ LF :: rest)] s
    = Some s'
    /\ content_data s' = Qt.trimmed data_line
    /\ chunked_transfer_encoding s' = true
    /\ isFinished s' = true.
Proof.
  intros Hs Hh Hm Hsize Hdata.
  pose proof (read_reply_response status headers
                (size_line ++ LF :: data_line ++ LF :: rest) s Hs Hh) as E.
  cbv zeta in E. rewrite E. clear E.
  rewrite <- app_assoc. cbn [app].
  rewrite (split_line size_line _ Hsize).
  rewrite <- app_assoc. cbn [app].
  rewrite (split_line data_line _ Hdata).
  unfold take_body. rewrite raise_chunked_flag, parse_status_chunked.
  cbn [chunked_transfer_encoding set_reply_data]. rewrite Hm.
  cbn [nth_error option_map]. eexists. split; [reflexivity|].
  cbn [content_data chunked_transfer_encoding isFinished emit setFinished
       set_content_data].
  rewrite raise_chunked_flag, parse_status_chunked.
  cbn [chunked_transfer_encoding set_reply_data]. rewrite Hm.
  repeat split.
Qed.

Lemma chunk_size_line_is_skipped_unread_witness :
  let status := bytes "HTTP/1.1 200 OK" in
  let headers := [bytes "Transfer-Encoding: chunked"] in
  let size_line := bytes "ffff" ++ [CR] in
  let data_line := bytes "test" ++ [CR] in
  no_lf status = true
  /\ forallb header_ok headers = true
  /\ existsb mentions_chunked headers
     || chunked_transfer_encoding fresh_reply = true
  /\ no_lf size_line = true
  /\ no_lf data_line = true
  /\ exists s',
       read_reply
         [response_wire status headers
            (size_line ++ LF :: data_line ++ LF :: bytes "0")]
         fresh_reply
       = Some s'
       /\ content_data s' = Qt.trimmed data_line
       /\ chunked_transfer_encoding s' = true
       /\ isFinished s' = true.
Proof.
  intros status headers size_line data_line.
  split; [reflexivity|]. split; [reflexivity|]. split; [reflexivity|].
  split; [reflexivity|]. split; [reflexivity|].
  exact (chunk_size_line_is_skipped_unread
           status headers size_line data_line (bytes "0") fresh_reply
           eq_refl eq_refl eq_refl eq_refl eq_refl).
Defined.

(* ===================================================================== *)
(** * Cancellation, and what comes after it *)
(* ===================================================================== *)

(** Over a run, from any reply: the socket is left alone, a finished reply
    stays finished, an error is never cleared and a closed reply stays
    closed. *)
Lemma run_keeps_end_state evs :
  forall s s' : LocalSocketReply,
  snd (run evs s) = Some s' ->
  local_socket s' = local_socket s
  /\ (isFinished s = true -> isFinished s' = true)
  /\ (error s <> NoError -> error s' <> NoError)
  /\ (isOpen s = false -> isOpen s' = false).
Proof.
  induction evs as [|e evs IH]; intros s s' H.
  - cbn in H. inversion H; subst. repeat split; auto.
  - cbn [run] in H.
    destruct (step e s) as [[out s1]|] eqn:Hstep; [|discriminate].
    cbn [snd] in H.
    destruct (step_monotone _ _ _ _ Hstep) as (K1 & F1 & E1 & O1 & _).
    destruct (IH _ _ H) as (K2 & F2 & E2 & O2).
    repeat split; auto; congruence.
Qed.

(** A response with an error code, lines ended by CR LF and no chunk
    marking, on any reply whose flag is down: what the notification
    stores and signals. *)
Lemma read_reply_error_response
  (v1 v2 d1 d2 d3 : ascii) (reason : QString) (headers : list QByteArray)
  (body_line rest : QByteArray) (s : LocalSocketReply) :
  Qt.is_digit v1 = true -> Qt.is_digit v2 = true ->
  Qt.is_digit d1 = true -> Qt.is_digit d2 = true -> Qt.is_digit d3 = true ->
  no_lf reason = true -> no_nul reason = true ->
  forallb header_ok headers = true ->
  existsb mentions_chunked headers = false ->
  chunked_transfer_encoding s = false ->
  no_lf body_line = true ->
  (400 <= fst (Qt.toInt [d1; d2; d3]))%Z ->
  exists s',
    read_reply
      [response_wire (any_status_line v1 v2 d1 d2 d3 reason) headers
                     (body_line ++ LF :: rest)] s
    = Some s'
    /\ error s' = statusCodeFromHttp (fst (Qt.toInt [d1; d2; d3]))
    /\ errorString s' = reason ++ [CR]
    /\ content_data s' = Qt.trimmed body_line
    /\ emitted s'
       = emitted s
         ++ [sig_error (statusCodeFromHttp (fst (Qt.toInt [d1; d2; d3])));
             sig_finished].
Proof.
  intros Hv1 Hv2 H1 H2 H3 Hlf Hnul Hh Hm Hflag Hb Hcode.
  assert (Hs : no_lf (any_status_line v1 v2 d1 d2 d3 reason) = true)
    by (apply no_lf_any_status_line; assumption).
  pose proof (read_reply_plain_response _ headers (body_line ++ LF :: rest)
                s Hs Hh Hm Hflag) as E.
  cbv zeta in E. rewrite E. clear E.
  eexists. split; [reflexivity|].
  cbn [error errorString content_data emitted emit setFinished
       set_content_data].
  rewrite <- app_assoc. cbn [app]. rewrite (split_line body_line _ Hb).
  cbn [hd].
  assert (Hline : any_status_line v1 v2 d1 d2 d3 reason ++ [CR]
                  = any_status_line v1 v2 d1 d2 d3 (reason ++ [CR]))
    by (unfold any_status_line; rewrite <- !app_assoc; reflexivity).
  rewrite Hline. unfold parse_status.
  rewrite (regex_on_any_status_line v1 v2 d1 d2 d3 (reason ++ [CR])
             Hv1 Hv2 H1 H2 H3)
    by (rewrite ?no_lf_app, ?no_nul_app, ?Hlf, ?Hnul; reflexivity).
  cbn [Regex.captured_status Regex.captured_message].
  destruct (Qt.toInt [d1; d2; d3]) as [code ok]. cbn [fst] in Hcode |- *.
  destruct (Z.geb_spec code 400) as [_|Hlt]; [|lia].
  cbn. rewrite <- app_assoc. repeat split.
Qed.

(** C7, as the code has it. [abort] finishes the reply at once with the
    cancellation error and its message, signals the error and the end,
    and closes the reply as a device. It leaves the body and the cursor as
    they are; the body of a reply that has not finished is empty, at
    whatever point of its life the reply is (the body is only set by the
    parse that finishes the reply). It does not act on the transport,
    which stays as it is until the reply is destroyed.

    What lasts after [abort], whatever happens next (readiness
    notifications, reads, aborts): the reply stays finished and closed,
    its error is never [NoError], the socket is left alone, and the public
    reader delivers no byte. The state is not final beyond that: a later
    readiness notification is still read and parsed, and a response with
    an error code then replaces the cancellation error and its message,
    sets the body and signals an error and the end once more. *)
Theorem abort_cancels_reply (s : LocalSocketReply) :
  isFinished (abort s) = true
  /\ error (abort s) = OperationCanceledError
  /\ errorString (abort s) = bytes "Operation canceled"
  /\ emitted (abort s)
     = emitted s ++ [sig_error OperationCanceledError; sig_finished]
  /\ isOpen (abort s) = false
  /\ (forall evs,
        Forall (fun out => out = ((-1)%Z, @nil ascii))
               (fst (run evs (abort s))))
  /\ content_data (abort s) = content_data s
  /\ offset (abort s) = offset s
  /\ local_socket (abort s) = local_socket s
  /\ (forall version k request outgoingData evs s1,
        snd (run evs (construct version k request outgoingData)) = Some s1 ->
        isFinished s1 = false ->
        content_data (abort s1) = [])
  /\ (forall version k request outgoingData,
        option_map connected
          (local_socket
             (destroy (abort (construct version k request outgoingData))))
        = Some false)
  /\ (forall evs s',
        snd (run evs (abort s)) = Some s' ->
        isFinished s' = true
        /\ isOpen s' = false
        /\ error s' <> NoError
        /\ local_socket s' = local_socket s)
  /\ (forall v1 v2 d1 d2 d3 reason headers body_line rest,
        Qt.is_digit v1 = true -> Qt.is_digit v2 = true ->
        Qt.is_digit d1 = true -> Qt.is_digit d2 = true ->
        Qt.is_digit d3 = true ->
        no_lf reason = true -> no_nul reason = true ->
        forallb header_ok headers = true ->
        existsb mentions_chunked headers = false ->
        chunked_transfer_encoding s = false ->
        no_lf body_line = true ->
        (400 <= fst (Qt.toInt [d1; d2; d3]))%Z ->
        exists s',
          read_reply
            [response_wire (any_status_line v1 v2 d1 d2 d3 reason) headers
                           (body_line ++ LF :: rest)] (abort s)
          = Some s'
          /\ error s' = statusCodeFromHttp (fst (Qt.toInt [d1; d2; d3]))
          /\ error s' <> OperationCanceledError
          /\ errorString s' = reason ++ [CR]
          /\ content_data s' = Qt.trimmed body_line
          /\ emitted s'
             = emitted s
               ++ [sig_error OperationCanceledError; sig_finished;
                   sig_error
                     (statusCodeFromHttp (fst (Qt.toInt [d1; d2; d3])));
                   sig_finished]).
Proof.
  split; [reflexivity|]. split; [reflexivity|]. split; [reflexivity|].
  split; [cbn; rewrite <- app_assoc; reflexivity|].
  split; [reflexivity|].
  split; [intros evs; apply run_closed; reflexivity|].
  split; [reflexivity|]. split; [reflexivity|]. split; [reflexivity|].
  split.
  { intros version k request outgoingData evs s1 Hrun Hnot.
    change (content_data (abort s1)) with (content_data s1).
    destruct (run_unfinished_no_body evs
                (construct version k request outgoingData) s1
                (or_intror eq_refl) Hrun) as [Hfin|Hbody];
      [congruence | exact Hbody]. }
  split; [reflexivity|].
  split.
  { intros evs s' Hrun.
    destruct (run_keeps_end_state evs (abort s) s' Hrun)
      as (Hk & Hf & He & Ho).
    split; [apply Hf; reflexivity|].
    split; [apply Ho; reflexivity|].
    split; [apply He; discriminate | exact Hk]. }
  intros v1 v2 d1 d2 d3 reason headers body_line rest
         Hv1 Hv2 H1 H2 H3 Hlf Hnul Hh Hm Hflag Hb Hcode.
  destruct (read_reply_error_response v1 v2 d1 d2 d3 reason headers
              body_line rest (abort s)
              Hv1 Hv2 H1 H2 H3 Hlf Hnul Hh Hm Hflag Hb Hcode)
    as (s' & Hr & He & Hmsg & Hbody & Hsig).
  exists s'. split; [exact Hr|]. split; [exact He|].
  split.
  { rewrite He. unfold statusCodeFromHttp.
    repeat match goal with
    | |- context [if ?c then _ else _] => destruct c
    end; discriminate. }
  split; [exact Hmsg|]. split; [exact Hbody|].
  rewrite Hsig. cbn [emitted abort emit setFinished setError close set_open].
  rewrite <- !app_assoc. reflexivity.
Qed.

(** C7 as stated fails twice over. After [abort] on a reply that has not
    finished the transport is still connected; and the cancelled state is
    not terminal: the reply to a missing resource that arrives afterwards
    is parsed, the cancellation error gives way to the error of 404, the
    body is set, and an error and the end are signalled a second time. *)
Lemma aborted_reply_is_connected_and_not_terminal :
  let s := fresh_reply in
  let wire :=
    response_wire (bytes "HTTP/1.1 404 Not Found")
                  [bytes "Content-Type: application/json"]
                  (bytes "{}" ++ [LF]) in
  isFinished s = false
  /\ isFinished (abort s) = true
  /\ option_map connected (local_socket (abort s)) = Some true
  /\ option_map
       (fun s' => (error s', content_data s', emitted s'))
       (read_reply [wire] (abort s))
     = Some (ContentNotFoundError, bytes "{}",
             [sig_error OperationCanceledError; sig_finished;
              sig_error ContentNotFoundError; sig_finished]).
Proof. vm_compute. repeat split. Qed.
